(** * csv-sniffer: dialect inference for delimited text

    A shallow embedding of the sniffer's engine (newline detection, the
    pattern-based and the frequency-based delimiter guessers, the quote-aware
    sample parser, the column type accumulation and the header vote) together
    with the properties stated about it.

    Conventions of the embedding.
    - A JavaScript string is a [string]: a sequence of code units, here
      restricted to the range 0..255.
    - A counter, an index or a length is a [nat]; a JavaScript number that is
      the result of a division is a binary64 [float] (PrimFloat), so that
      NaN and rounding behave as they do in the program.
    - A value that may be [undefined] or [null] is a [jsopt]. *)

From Stdlib Require Import ZArith List String Ascii Bool Arith Lia Sorted Permutation.
From Stdlib Require Import Floats.PrimFloat Numbers.Cyclic.Int63.Uint63.
Import ListNotations.
Open Scope string_scope.
Open Scope list_scope.
Open Scope nat_scope.

Set Warnings "-inexact-float".

(** ** Strings of the JavaScript runtime *)

Module JS.

Definition code (c : ascii) : nat := nat_of_ascii c.

Definition chr (n : nat) : ascii := ascii_of_nat n.

Definition LF : ascii := chr 10.
Definition CR : ascii := chr 13.
Definition TAB : ascii := chr 9.
Definition DQUOTE : ascii := chr 34.
Definition SQUOTE : ascii := chr 39.
Definition BACKSLASH : ascii := chr 92.

(** A one-character string, as [charAt] and [String.fromCharCode] return. *)
Definition str1 (c : ascii) : string := String c EmptyString.

Definition isEmpty (s : string) : bool :=
  match s with EmptyString => true | String _ _ => false end.

(** Truthiness of a string: only the empty string is falsy. *)
Definition truthy (s : string) : bool := negb (isEmpty s).

Fixpoint mem (c : ascii) (s : string) : bool :=
  match s with
  | EmptyString => false
  | String d s' => Ascii.eqb c d || mem c s'
  end.

Fixpoint span (p : ascii -> bool) (s : string) : string * string :=
  match s with
  | EmptyString => (EmptyString, EmptyString)
  | String c s' =>
      if p c then let (a, b) := span p s' in (String c a, b)
      else (EmptyString, s)
  end.

Fixpoint all (p : ascii -> bool) (s : string) : bool :=
  match s with
  | EmptyString => true
  | String c s' => p c && all p s'
  end.

(** [s.substring(n)]: [s] without its first [n] code units. *)
Fixpoint drop (n : nat) (s : string) : string :=
  match n, s with
  | S n', String _ s' => drop n' s'
  | _, _ => s
  end.

(** [Array.prototype.indexOf(x) > -1] on an array of strings. *)
Definition includes (x : string) (l : list string) : bool :=
  existsb (String.eqb x) l.

(** *** Splitting on a separator

    [splitOn sep s skip cur] walks [s] from left to right. It is the loop
    [while ((p = s.indexOf(sep, from)) > -1) { ...; from = p + sep.length }]:
    the occurrences of [sep] are found leftmost first and do not overlap.
    [skip] counts the code units of the occurrence just found that are still
    to be stepped over, [cur] is the text since the end of the previous
    occurrence. The result is the list of pieces that are followed by an
    occurrence, and the text left after the last occurrence. *)
Fixpoint splitOn (sep s : string) (skip : nat) (cur : string)
  : list string * string :=
  match skip with
  | S k =>
      match s with
      | EmptyString => ([], cur)
      | String _ s' => splitOn sep s' k cur
      end
  | O =>
      match s with
      | EmptyString => ([], cur)
      | String c s' =>
          if String.prefix sep s
          then let (ls, tl) := splitOn sep s' (String.length sep - 1) EmptyString in
               (cur :: ls, tl)
          else splitOn sep s' 0 (cur ++ str1 c)
      end
  end.

(** The pieces of [s] that end at an occurrence of [sep]. *)
Definition terminated (sep s : string) : list string :=
  fst (splitOn sep s 0 EmptyString).

(** [String.prototype.split] with a string separator (no limit). A
    separator that is [undefined] is handled by the caller. *)
Definition split (sep s : string) : list string :=
  match sep with
  | EmptyString => map str1 (list_ascii_of_string s)
  | String _ _ =>
      let (ls, tl) := splitOn sep s 0 EmptyString in ls ++ [tl]
  end.

(** *** [Number(string)]

    The conversion of a string to a number, as ECMAScript 2015 and later
    define it (StringToNumber): white space trimmed, the empty string read
    as zero, decimal literals with fraction and exponent, [Infinity], and
    the prefixed binary, octal and hexadecimal integers; anything else is
    NaN. The result is kept exact: a finite binary64 value is [Fin m e],
    standing for [m * 2^e]; the sign of zero is not recorded, as neither
    [isFinite] nor [% 1 !== 0] can see it. *)

Inductive number : Type :=
| NaN : number
| Inf (neg : bool) : number
| Fin (m e : Z) : number.

Definition isWhiteSpace (c : ascii) : bool :=
  existsb (Nat.eqb (code c)) [9; 10; 11; 12; 13; 32; 160].

Definition trimLeft (s : string) : string := snd (span isWhiteSpace s).

Fixpoint trimRight (s : string) : string :=
  match s with
  | EmptyString => EmptyString
  | String c s' =>
      let t := trimRight s' in
      if isWhiteSpace c && isEmpty t then EmptyString else String c t
  end.

Definition trim (s : string) : string := trimRight (trimLeft s).

Definition isDigit (c : ascii) : bool :=
  (48 <=? code c) && (code c <=? 57).

(** Value of a digit in a base up to 16; [None] when [c] is no digit of it. *)
Definition digitIn (base : nat) (c : ascii) : option nat :=
  let n := code c in
  let v := if (48 <=? n) && (n <=? 57) then Some (n - 48)
           else if (97 <=? n) && (n <=? 102) then Some (n - 87)
           else if (65 <=? n) && (n <=? 70) then Some (n - 55)
           else None in
  match v with
  | Some d => if d <? base then Some d else None
  | None => None
  end.

Definition isDigitIn (base : nat) (c : ascii) : bool :=
  match digitIn base c with Some _ => true | None => false end.

Fixpoint digitsValue (base : nat) (acc : Z) (s : string) : Z :=
  match s with
  | EmptyString => acc
  | String c s' =>
      let d := match digitIn base c with Some d => d | None => 0 end in
      digitsValue base (acc * Z.of_nat base + Z.of_nat d)%Z s'
  end.

(** Nearest integer to [n / d], ties to even ([0 <= n], [0 < d]). *)
Definition roundHalfEven (n d : Z) : Z :=
  let q := (n / d)%Z in
  let r := (n mod d)%Z in
  match (2 * r ?= d)%Z with
  | Lt => q
  | Gt => (q + 1)%Z
  | Eq => if Z.even q then q else (q + 1)%Z
  end.

(** [floor (log2 (n / d))] for positive [n] and [d]. *)
Definition floorLog2 (n d : Z) : Z :=
  let e := (Z.log2 n - Z.log2 d)%Z in
  let reached := if (0 <=? e)%Z then (d * 2 ^ e <=? n)%Z
                 else (d <=? n * 2 ^ (- e))%Z in
  if reached then e else (e - 1)%Z.

(** The binary64 value nearest to the rational [n / d] ([0 <= n], [0 < d]),
    round to nearest, ties to even, with gradual underflow and overflow to
    infinity. *)
Definition toDouble (n d : Z) : number :=
  if (n =? 0)%Z then Fin 0 0 else
  let e := floorLog2 n d in
  if (1024 <=? e)%Z then Inf false else
  let p := (Z.max e (-1022) - 52)%Z in
  let q := if (0 <=? p)%Z then roundHalfEven n (d * 2 ^ p)
           else roundHalfEven (n * 2 ^ (- p)) d in
  if (2 ^ 53 <=? q)%Z && (971 <=? p)%Z then Inf false else Fin q p.

Definition negate (x : number) : number :=
  match x with
  | NaN => NaN
  | Inf b => Inf (negb b)
  | Fin m e => Fin (- m) e
  end.

(** [m * 10^e] as a binary64 value. *)
Definition decimalValue (m e : Z) : number :=
  if (0 <=? e)%Z then toDouble (m * 10 ^ e) 1 else toDouble m (10 ^ (- e)).

(** ExponentPart, optional: [e] or [E], an optional sign, one digit or more. *)
Definition parseExponent (s : string) : option Z :=
  match s with
  | EmptyString => Some 0%Z
  | String c r =>
      if Ascii.eqb c "e" || Ascii.eqb c "E" then
        let '(neg, ds) :=
          match r with
          | String sg r' =>
              if Ascii.eqb sg "+" then (false, r')
              else if Ascii.eqb sg "-" then (true, r')
              else (false, r)
          | EmptyString => (false, r)
          end in
        if truthy ds && all isDigit ds
        then Some (if neg then (- digitsValue 10 0 ds)%Z else digitsValue 10 0 ds)
        else None
      else None
  end.

(** StrUnsignedDecimalLiteral. *)
Definition parseUnsignedDecimal (s : string) : number :=
  if String.eqb s "Infinity" then Inf false else
  let (d1, r1) := span isDigit s in
  match r1 with
  | String c r2 =>
      if Ascii.eqb c "." then
        let (d2, r3) := span isDigit r2 in
        if isEmpty d1 && isEmpty d2 then NaN else
        match parseExponent r3 with
        | Some e => decimalValue (digitsValue 10 0 (d1 ++ d2))
                                 (e - Z.of_nat (String.length d2))
        | None => NaN
        end
      else if isEmpty d1 then NaN else
        match parseExponent r1 with
        | Some e => decimalValue (digitsValue 10 0 d1) e
        | None => NaN
        end
  | EmptyString =>
      if isEmpty d1 then NaN else decimalValue (digitsValue 10 0 d1) 0
  end.

(** The base announced by a prefix [0x], [0o] or [0b] (either case). *)
Definition radixPrefix (s : string) : option (nat * string) :=
  match s with
  | String z (String x ds) =>
      if Ascii.eqb z "0" then
        if Ascii.eqb x "x" || Ascii.eqb x "X" then Some (16, ds)
        else if Ascii.eqb x "o" || Ascii.eqb x "O" then Some (8, ds)
        else if Ascii.eqb x "b" || Ascii.eqb x "B" then Some (2, ds)
        else None
      else None
  | _ => None
  end.

(** StrNumericLiteral, on a string that is already trimmed. *)
Definition parseNumeric (t : string) : number :=
  match radixPrefix t with
  | Some (base, ds) =>
      if truthy ds && all (isDigitIn base) ds
      then toDouble (digitsValue base 0 ds) 1 else NaN
  | None =>
      match t with
      | String sg r =>
          if Ascii.eqb sg "+" then parseUnsignedDecimal r
          else if Ascii.eqb sg "-" then negate (parseUnsignedDecimal r)
          else parseUnsignedDecimal t
      | EmptyString => NaN
      end
  end.

(** [Number(s)] for a string [s]: white space is trimmed, the empty string
    is zero. *)
Definition toNumber (s : string) : number :=
  let t := trim s in
  if isEmpty t then Fin 0 0 else parseNumeric t.

(** The global [isFinite], after the conversion of its argument. *)
Definition isFinite (x : number) : bool :=
  match x with Fin _ _ => true | _ => false end.

Definition isIntegral (m e : Z) : bool :=
  if (0 <=? e)%Z then true else (m mod 2 ^ (- e) =? 0)%Z.

(** [x % 1 !== 0]: the remainder of a finite number is its fractional part;
    that of NaN or of an infinity is NaN, which differs from zero. *)
Definition rem1NonZero (x : number) : bool :=
  match x with
  | Fin m e => negb (isIntegral m e)
  | _ => true
  end.

End JS.

(** A value that the program tests against [undefined] and [null]. *)
Inductive jsopt : Type :=
| Undefined : jsopt
| Null : jsopt
| Str (s : string) : jsopt.

(** ** Type accumulation *)

(** [getAccumulatedType(curValue, curType)], for a string value. *)
Definition getAccumulatedType (curValue curType : string) : string :=
  if String.eqb curType "string" then "string"
  else if negb (JS.isFinite (JS.toNumber curValue)) then "string"
  else if String.eqb curType "float" || JS.rem1NonZero (JS.toNumber curValue)
       then "float"
  else "integer".

(** ** Numbers of the program *)

(** A counter seen as a JavaScript number (exact below 2^53). *)
Definition ofNat (n : nat) : float :=
  PrimFloat.of_uint63 (Uint63.of_Z (Z.of_nat n)).

Definition ofZ (z : Z) : float :=
  if (z <? 0)%Z then PrimFloat.opp (PrimFloat.of_uint63 (Uint63.of_Z (- z)))
  else PrimFloat.of_uint63 (Uint63.of_Z z).

(** [var sum = 0; l.forEach(function(d) { sum += d; })] on lengths. *)
Definition sumLengths (l : list nat) : nat := fold_left Nat.add l 0.

(** ** Newline detection *)

Definition CRLF : string := String JS.CR (String JS.LF EmptyString).
Definition LFCR : string := String JS.LF (String JS.CR EmptyString).
Definition LF : string := JS.str1 JS.LF.
Definition CR : string := JS.str1 JS.CR.

Definition candidates : list string := [CRLF; LFCR; LF; CR].

(** The objects [nrLines] and [lineLengths], keyed by candidate. *)
Definition table (A : Type) : Type := list (string * A).

Fixpoint get {A : Type} (dflt : A) (k : string) (t : table A) : A :=
  match t with
  | [] => dflt
  | (k', v) :: t' => if String.eqb k k' then v else get dflt k t'
  end.

Fixpoint set {A : Type} (k : string) (v : A) (t : table A) : table A :=
  match t with
  | [] => [(k, v)]
  | (k', v') :: t' =>
      if String.eqb k k' then (k', v) :: t' else (k', v') :: set k v t'
  end.

(** The first loop: for each candidate, the lengths of the lines it ends;
    the number of lines is one more than the number of its occurrences. *)
Definition lineLengths (sample : string) : table (list nat) :=
  map (fun newlineStr =>
         (newlineStr, map String.length (JS.terminated newlineStr sample)))
      candidates.

Definition countLines (sample : string) : table nat :=
  map (fun newlineStr =>
         (newlineStr, S (List.length (JS.terminated newlineStr sample))))
      candidates.

(** The second loop: a one-character candidate with as many lines as a
    two-character candidate that has more than one line is reset to 1. *)
Definition eliminate (nrLines : table nat) : table nat :=
  fold_left
    (fun nrLines newlineStr =>
       let nr := get 0 newlineStr nrLines in
       if 1 <? nr then
         fold_left
           (fun nrLines newlineStr =>
              if get 0 newlineStr nrLines =? nr
              then set newlineStr 1 nrLines else nrLines)
           [LF; CR] nrLines
       else nrLines)
    [CRLF; LFCR] nrLines.

(** The score of the final round: mean absolute deviation of the line
    lengths, divided by the number of lines and by their mean length. *)
Definition score (l : list nat) : float :=
  let avg := (ofNat (sumLengths l) / ofNat (List.length l))%float in
  let absSum :=
    fold_left (fun absSum d => (absSum + PrimFloat.abs (ofNat d - avg))%float)
              l 0%float in
  (absSum / ofNat (List.length l) / avg)%float.

Definition threshold : nat := 5.

(** The candidates that are left with more than one line. *)
Definition remaining (nrLines : table nat) : list string :=
  filter (fun newlineStr => 1 <? get 0 newlineStr nrLines) candidates.

(** [getNewlineStr(sample)]; [None] is [null]. *)
Definition getNewlineStr (sample : string) : option string :=
  let nrLines := eliminate (countLines sample) in
  let remainingCandidates := remaining nrLines in
  match remainingCandidates with
  | [] => None
  | [only] => Some only
  | _ =>
      let maxNrLines :=
        fold_left (fun m newlineStr => Nat.max m (get 0 newlineStr nrLines))
                  remainingCandidates 0 in
      let finalRemainers :=
        filter (fun newlineStr => threshold <? get 0 newlineStr nrLines)
               remainingCandidates in
      match finalRemainers with
      | [] =>
          find (fun newlineStr => get 0 newlineStr nrLines =? maxNrLines)
               remainingCandidates
      | [only] => Some only
      | _ =>
          fst (fold_left
                 (fun '(winner, winnerScore) newlineStr =>
                    let sc := score (get [] newlineStr (lineLengths sample)) in
                    if (sc <? winnerScore)%float
                    then (Some newlineStr, sc) else (winner, winnerScore))
                 finalRemainers (None, infinity))
      end
  end.

(** ** The pattern-based guesser *)

(** The regular expressions of the program are sequences of the five kinds
    of item below; matching is by backtracking, leftmost first, a lazy star
    taking as few characters as the rest of the pattern allows. The
    expressions carry the flag [g] only, so [^] holds at the start of the
    sample and [$] at its end. *)
Module Regex.

Inductive item : Type :=
| Group (n : nat) (cls : ascii -> bool)   (* ([class]), capturing group n *)
| LazyStar (cls : ascii -> bool)          (* [class]*? *)
| Backref (n : nat)                       (* \n *)
| Bol                                     (* ^ *)
| Eol.                                    (* $ *)

Definition captures : Type := list (nat * ascii).

Fixpoint capture (n : nat) (caps : captures) : option ascii :=
  match caps with
  | [] => None
  | (m, c) :: caps' => if n =? m then Some c else capture n caps'
  end.

(** [matchItems items atStart s caps]: match [items] at the head of [s];
    [atStart] tells whether [s] is the whole sample. The result is the
    captures and the text after the match. *)
Fixpoint matchItems (items : list item) (atStart : bool) (s : string)
  (caps : captures) {struct items} : option (captures * string) :=
  match items with
  | [] => Some (caps, s)
  | it :: k =>
      match it with
      | Group n cls =>
          match s with
          | String c s' =>
              if cls c then matchItems k false s' ((n, c) :: caps) else None
          | EmptyString => None
          end
      | LazyStar cls =>
          (fix star (atStart : bool) (s : string) {struct s} :=
             match matchItems k atStart s caps with
             | Some r => Some r
             | None =>
                 match s with
                 | String c s' => if cls c then star false s' else None
                 | EmptyString => None
                 end
             end) atStart s
      | Backref n =>
          match capture n caps with
          | Some c0 =>
              match s with
              | String c s' =>
                  if Ascii.eqb c c0 then matchItems k false s' caps else None
              | EmptyString => None
              end
          | None => matchItems k atStart s caps
          end
      | Bol => if atStart then matchItems k atStart s caps else None
      | Eol => if JS.isEmpty s then matchItems k atStart s caps else None
      end
  end.

(** The number of groups of a pattern: each takes one character. *)
Fixpoint groups (items : list item) : nat :=
  match items with
  | [] => 0
  | Group _ _ :: k => S (groups k)
  | _ :: k => groups k
  end.

(** [while (m = expr.exec(sample)) ...] for a global expression: the
    successive matches, each search starting where the previous match
    ended. [skip] counts the characters of the previous match still to be
    stepped over. Every expression of the program has a group, hence
    consumes a character at least, so the search always advances. *)
Fixpoint execAll (items : list item) (atStart : bool) (s : string)
  (skip : nat) : list captures :=
  match skip with
  | S k =>
      match s with
      | String _ s' => execAll items false s' k
      | EmptyString => []
      end
  | O =>
      match matchItems items atStart s [] with
      | Some (caps, rest) =>
          caps ::
          match s with
          | String _ s' =>
              execAll items false s' (String.length s - String.length rest - 1)
          | EmptyString => []
          end
      | None =>
          match s with
          | String _ s' => execAll items false s' 0
          | EmptyString => []
          end
      end
  end.

End Regex.

(** White space as the class [\s] sees it. *)
Definition whitespace : ascii -> bool := JS.isWhiteSpace.

Definition isQuote (c : ascii) : bool :=
  Ascii.eqb c JS.DQUOTE || Ascii.eqb c JS.SQUOTE.

(** The two negated classes built from the newline string: the delimiter
    class excludes the newline characters and both quote characters, the
    content class excludes the newline characters. For a newline string
    without backslash, caret, hyphen and closing bracket (every detected
    newline string is such), the characters excluded on its behalf are the
    characters of the string. *)
Definition delimiterClass (newlineStr : string) (c : ascii) : bool :=
  negb (JS.mem c newlineStr || isQuote c).

Definition contentClass (newlineStr : string) (c : ascii) : bool :=
  negb (JS.mem c newlineStr).

Record expr : Type := {
  items : list Regex.item;
  delimRef : option nat;
  quoteRef : option nat
}.

(** The four expressions, in the order in which they are tried. *)
Definition exprs (newlineStr : string) : list expr :=
  let delimiter := delimiterClass newlineStr in
  let content := contentClass newlineStr in
  [ {| items := [Regex.Group 1 delimiter; Regex.LazyStar whitespace;
                 Regex.Group 2 isQuote; Regex.LazyStar content;
                 Regex.Backref 2; Regex.LazyStar whitespace;
                 Regex.Backref 1];
       delimRef := Some 1; quoteRef := Some 2 |};
    {| items := [Regex.Bol; Regex.LazyStar whitespace;
                 Regex.Group 1 isQuote; Regex.LazyStar content;
                 Regex.Backref 1; Regex.LazyStar whitespace;
                 Regex.Group 2 delimiter];
       delimRef := Some 2; quoteRef := Some 1 |};
    {| items := [Regex.Group 1 delimiter; Regex.LazyStar whitespace;
                 Regex.Group 2 isQuote; Regex.LazyStar content;
                 Regex.Backref 2; Regex.LazyStar whitespace;
                 Regex.Eol];
       delimRef := Some 1; quoteRef := Some 2 |};
    {| items := [Regex.Bol; Regex.LazyStar whitespace;
                 Regex.Group 1 isQuote; Regex.LazyStar content;
                 Regex.Backref 1; Regex.LazyStar whitespace;
                 Regex.Eol];
       delimRef := None; quoteRef := Some 1 |} ].

(** One entry of [matches]: the properties [delim] and [quote], when set. *)
Record found : Type := { delim : option string; quote : option string }.

Definition ref (r : option nat) (caps : Regex.captures) : option string :=
  match r with
  | Some n => option_map JS.str1 (Regex.capture n caps)
  | None => None
  end.

Definition matchesOf (d : expr) (sample : string) : list found :=
  map (fun caps => {| delim := ref (delimRef d) caps;
                      quote := ref (quoteRef d) caps |})
      (Regex.execAll (items d) true sample 0).

(** [exprs.every(...)]: the matches of the first expression that has any. *)
Fixpoint firstMatches (ds : list expr) (sample : string) : list found :=
  match ds with
  | [] => []
  | d :: ds' =>
      match matchesOf d sample with
      | [] => firstMatches ds' sample
      | ms => ms
      end
  end.

(** *** Counter objects

    [delimCounters] and [quoteCounters] are objects used as counters: a
    [table nat] in the order in which the properties were created. *)

Fixpoint bump (k : string) (o : table nat) : table nat :=
  match o with
  | [] => [(k, 1)]
  | (k', n) :: o' =>
      if String.eqb k k' then (k', S n) :: o' else (k', n) :: bump k o'
  end.

(** A property key that is an array index: a canonical decimal numeral
    below 2^32 - 1. *)
Definition arrayIndex (k : string) : option Z :=
  let canonical :=
    match k with
    | EmptyString => false
    | String c EmptyString => JS.isDigit c
    | String c _ => JS.isDigit c && negb (Ascii.eqb c "0") && JS.all JS.isDigit k
    end in
  if canonical && (JS.digitsValue 10 0 k <? 2 ^ 32 - 1)%Z
  then Some (JS.digitsValue 10 0 k) else None.

Fixpoint insertIndex (v : Z) (k : string) (l : list (Z * string))
  : list (Z * string) :=
  match l with
  | [] => [(v, k)]
  | (v', k') :: l' =>
      if (v <? v')%Z then (v, k) :: l else (v', k') :: insertIndex v k l'
  end.

(** [Object.keys(o)]: the array indices in ascending order, then the other
    keys in the order of their creation. *)
Definition keys {A : Type} (o : table A) : list string :=
  let indices :=
    fold_left (fun acc '(k, _) =>
                 match arrayIndex k with
                 | Some v => insertIndex v k acc
                 | None => acc
                 end) o [] in
  map snd indices ++
  map fst (filter (fun '(k, _) =>
                     match arrayIndex k with Some _ => false | None => true end)
                  o).

(** [var maxCount = -1; ks.forEach(function(d) { if (o[d] > maxCount) ... })]:
    the first key, in the order of [keys], with the greatest count. *)
Definition mostCounted (o : table nat) : option string :=
  fst (fold_left
         (fun '(best, maxCount) d =>
            let n := Z.of_nat (get 0 d o) in
            if (maxCount <? n)%Z then (Some d, n) else (best, maxCount))
         (keys o) (None, (-1)%Z)).

(** [!delimiters || delimiters.indexOf(d) > -1]; the set given to the
    constructor is an array of strings, [None] when it was not given. *)
Definition allowed (delimiters : option (list string)) (d : string) : bool :=
  match delimiters with
  | None => true
  | Some l => JS.includes d l
  end.

Definition tallyDelims (delimiters : option (list string))
  (matches : list found) : table nat :=
  fold_left (fun o d =>
               match delim d with
               | Some x => if allowed delimiters x then bump x o else o
               | None => o
               end) matches [].

Definition tallyQuotes (matches : list found) : table nat :=
  fold_left (fun o d =>
               match quote d with
               | Some x => bump x o
               | None => o
               end) matches [].

(** The part of [guessQuoteAndDelimiter] that follows the search: the vote
    over the matches. The variable [quote] is assigned by the loop over the
    keys of [quoteCounters]; every match of the four expressions carries a
    quote, so the loop runs at least once whenever there is a match. *)
Definition electQuoteAndDelimiter (delimiters : option (list string))
  (matches : list found) : found :=
  match matches with
  | [] => {| delim := None; quote := None |}
  | _ =>
      let delimCounters := tallyDelims delimiters matches in
      let quoteCounters := tallyQuotes matches in
      let d := mostCounted delimCounters in
      {| delim := match d with
                  | Some x => if String.eqb x LF then None else Some x
                  | None => None
                  end;
         quote := mostCounted quoteCounters |}
  end.

(** [guessQuoteAndDelimiter(sample, newlineStr, delimiters)]. *)
Definition guessQuoteAndDelimiter (sample newlineStr : string)
  (delimiters : option (list string)) : found :=
  electQuoteAndDelimiter delimiters (firstMatches (exprs newlineStr) sample).

(** ** The frequency-based guesser *)

Definition asciiMax : nat := 127.

(** [++ascii[code]]. An increment at an index from 127 on stores NaN in a
    slot that no later loop reads (they all stop below 127); it is left
    out. *)
Fixpoint increment (i : nat) (ascii : list nat) : list nat :=
  match ascii, i with
  | [], _ => []
  | n :: ascii', O => S n :: ascii'
  | n :: ascii', S i' => n :: increment i' ascii'
  end.

(** The table of one line: for each code below 127 its number of
    occurrences in the line. *)
Definition asciiTable (line : string) : list nat :=
  fold_left (fun ascii c => increment (JS.code c) ascii)
            (list_ascii_of_string line) (repeat 0 asciiMax).

(** One table per line that is ended by the newline string. *)
Definition asciiTables (sample newlineStr : string) : list (list nat) :=
  map asciiTable (JS.terminated newlineStr sample).

(** A frequency table is a sparse array: the indices that were assigned, in
    ascending order, with their values. [record freq t] is
    [if (!t[freq]) t[freq] = 1; else t[freq] += 1]. *)
Fixpoint record (freq : nat) (t : list (nat * nat)) : list (nat * nat) :=
  match t with
  | [] => [(freq, 1)]
  | (f, m) :: t' =>
      if freq =? f then (f, S m) :: t'
      else if freq <? f then (freq, 1) :: t
      else (f, m) :: record freq t'
  end.

Definition freqTable (i : nat) (tables : list (list nat)) : list (nat * nat) :=
  fold_left (fun t d => record (nth i d 0) t) tables [].

Record modeEntry : Type := { maxFreq : nat; mode : Z }.

(** The greatest meta-frequency and the frequency that has it (the first
    one, in ascending order of the frequencies). *)
Definition maxMeta (t : list (nat * nat)) : option (nat * nat) :=
  fold_left (fun max '(freq, metaFreq) =>
               match max with
               | None => Some (freq, metaFreq)
               | Some (_, m) =>
                   if m <? metaFreq then Some (freq, metaFreq) else max
               end) t None.

(** The entry of [modes] for one character; [None] when the loop skips the
    character because it occurs on no line. (The table is never empty:
    there is at least one line.) *)
Definition modeOf (t : list (nat * nat)) : option modeEntry :=
  match t with
  | [(0, _)] => None
  | _ =>
      match maxMeta t with
      | Some (freq, metaFreq) =>
          let sum := fold_left (fun sum '(_, d) => sum + d) t 0 in
          Some {| maxFreq := freq;
                  mode := (Z.of_nat metaFreq
                           - (Z.of_nat sum - Z.of_nat metaFreq))%Z |}
      | None => None
      end
  end.

(** The sparse array [modes]: the assigned indices in ascending order. *)
Definition modes (tables : list (list nat)) : list (nat * modeEntry) :=
  flat_map (fun i =>
              match modeOf (freqTable i tables) with
              | Some d => [(i, d)]
              | None => []
              end) (seq 0 asciiMax).

(** One round of the search: the characters whose mode reaches the
    consistency, in ascending order of their codes. *)
Definition round (delimiters : option (list string))
  (ms : list (nat * modeEntry)) (nrLines : nat) (consistency : float)
  : list string :=
  flat_map (fun '(i, d) =>
              if (maxFreq d =? 0) || (mode d <=? 0)%Z then []
              else
                let delim := JS.str1 (JS.chr i) in
                if (consistency <=? ofZ (mode d) / ofNat nrLines)%float
                   && allowed delimiters delim
                then [delim] else []) ms.

(** The consistencies that the loop goes through, as long as no delimiter is
    found: from 1.0 down, in steps of 0.01, while above 0.8. They do not
    depend on the sample; [fuel] bounds their number. *)
Definition giveUp : float := 0.8%float.
Definition decreaseStep : float := 0.01%float.

Fixpoint consistencies (fuel : nat) (consistency : float) : list float :=
  match fuel with
  | O => []
  | S fuel' =>
      if (giveUp <? consistency)%float
      then consistency :: consistencies fuel' (consistency - decreaseStep)%float
      else []
  end.

(** [while (delims.length == 0 && consistency > threshold)]. *)
Fixpoint search (delimiters : option (list string))
  (ms : list (nat * modeEntry)) (nrLines : nat) (cs : list float)
  : list string :=
  match cs with
  | [] => []
  | consistency :: cs' =>
      match round delimiters ms nrLines consistency with
      | [] => search delimiters ms nrLines cs'
      | delims => delims
      end
  end.

Definition knownDelimiters : list string :=
  [","; JS.str1 JS.TAB; ";"; " "; ":"; "|"].

(** [array.forEach(callback)]: what the callback returns is discarded. *)
Definition forEach {A B : Type} (callback : A -> B) (array : list A) : unit :=
  tt.

(** [guessDelimiter(sample, newlineStr, delimiters)], for a newline string
    that is not empty; [None] is [null]. *)
Definition guessDelimiter (sample newlineStr : string)
  (delimiters : option (list string)) : option string :=
  let tables := asciiTables sample newlineStr in
  let nrLines := List.length tables in
  if nrLines =? 0 then None else
  let delims :=
    search delimiters (modes tables) nrLines (consistencies 32 1.0%float) in
  match delims with
  | [] => None
  | [only] => Some only
  | first :: _ =>
      let _ := forEach (fun d => if JS.includes d delims then Some d else None)
                       knownDelimiters in
      Some first
  end.

(** ** The sample parser *)

(** [!x] for a value that is [undefined], [null] or a string. *)
Definition falsy (x : jsopt) : bool :=
  match x with
  | Str s => JS.isEmpty s
  | _ => true
  end.

(** [curchar == x], where [curchar] is a one-character string. *)
Definition isChar (curchar : ascii) (x : jsopt) : bool :=
  match x with
  | Str s => String.eqb (JS.str1 curchar) s
  | _ => false
  end.

(** [line.split(delimiter)]: a separator that is [undefined] leaves the line
    whole, one that is [null] is turned into the string [null]. *)
Definition splitLine (delimiter : jsopt) (line : string) : list string :=
  match delimiter with
  | Undefined => [line]
  | Null => JS.split "null" line
  | Str d => JS.split d line
  end.

(** The variables of the state machine. *)
Record parser : Type := {
  result : list (list string);
  vals : list string;
  curVal : string;
  insideQuotes : bool;
  escape : bool
}.

(** One turn of the loop, at the position where [rest] starts. *)
Definition step (newlineStr : string) (delimiter quotechar : jsopt)
  (rest : string) (st : parser) : parser :=
  match rest with
  | EmptyString => st
  | String curchar _ =>
      let literal :=
        {| result := result st; vals := vals st;
           curVal := (curVal st ++ JS.str1 curchar)%string;
           insideQuotes := insideQuotes st; escape := false |} in
      if escape st then literal
      else if Ascii.eqb curchar JS.BACKSLASH then
        {| result := result st; vals := vals st; curVal := curVal st;
           insideQuotes := insideQuotes st; escape := true |}
      else if isChar curchar quotechar then
        {| result := result st; vals := vals st; curVal := curVal st;
           insideQuotes := negb (insideQuotes st); escape := false |}
      else if insideQuotes st then literal
      else
        let atNewline := String.prefix newlineStr rest in
        if atNewline then
          {| result := result st ++
                       [if JS.isEmpty (curVal st) then vals st
                        else vals st ++ [curVal st]];
             vals := []; curVal := EmptyString;
             insideQuotes := false; escape := false |}
        else if isChar curchar delimiter then
          {| result := result st; vals := vals st ++ [curVal st];
             curVal := EmptyString; insideQuotes := false; escape := false |}
        else literal
  end.

(** [for (var i = 0; i < sample.length; ++i)]: [rest] is the sample from
    position [i] on. *)
Fixpoint run (newlineStr : string) (delimiter quotechar : jsopt)
  (rest : string) (st : parser) : list (list string) :=
  match rest with
  | EmptyString => result st
  | String _ rest' =>
      run newlineStr delimiter quotechar rest'
          (step newlineStr delimiter quotechar rest st)
  end.

(** [parseSample(sample, newlineStr, delimiter, quotechar)]. *)
Definition parseSample (sample newlineStr : string)
  (delimiter quotechar : jsopt) : list (list string) :=
  if falsy quotechar then
    let lines := JS.split newlineStr sample in
    let lines := if 1 <? List.length lines then removelast lines else lines in
    map (splitLine delimiter) lines
  else
    run newlineStr delimiter quotechar sample
        {| result := []; vals := []; curVal := EmptyString;
           insideQuotes := false; escape := false |}.

(** [CSVSniffer.prototype.getAccumulatedType]: the function above, exposed
    on the sniffer. *)
Definition exposedGetAccumulatedType (this : option (list string))
  (curValue curType : string) : string :=
  getAccumulatedType curValue curType.

(** ** Column types *)

Module Types.
Record t : Type := { first : list string; tail : list string; all : list string }.
End Types.

(** [cols.forEach(function(col, i) { types[i] = getAccumulatedType(col, types[i]); })]
    for [cols] and [types] of one length (the program calls it on no
    others). *)
Fixpoint accumulate (cols types : list string) : list string :=
  match cols, types with
  | col :: cols', ty :: types' =>
      getAccumulatedType col ty :: accumulate cols' types'
  | _, _ => types
  end.

(** [getTypes(parsedSample)]. *)
Definition getTypes (parsedSample : list (list string)) : Types.t :=
  match parsedSample with
  | [] => {| Types.first := []; Types.tail := []; Types.all := [] |}
  | firstValues :: rows =>
      let first := map (fun col => getAccumulatedType col "integer") firstValues in
      let tail :=
        fold_left (fun tail cols =>
                     if negb (List.length cols =? List.length first) then tail
                     else accumulate cols tail)
                  rows (map (fun _ => "integer") firstValues) in
      {| Types.first := first; Types.tail := tail;
         Types.all := accumulate firstValues tail |}
  end.

(** ** The header vote *)

Module Header.
Record t : Type := { types : list string; hasHeader : bool }.
End Header.

(** [cols.forEach(function(col, i) { lengthsTail[i].push(col.length); })]. *)
Fixpoint pushLengths (cols : list string) (lengthsTail : list (list nat))
  : list (list nat) :=
  match cols, lengthsTail with
  | col :: cols', l :: lengthsTail' =>
      (l ++ [String.length col]) :: pushLengths cols' lengthsTail'
  | _, _ => lengthsTail
  end.

Definition lengthsOfTail (firstValues : list string)
  (rows : list (list string)) : list (list nat) :=
  fold_left (fun lengthsTail cols =>
               if negb (List.length cols =? List.length firstValues)
               then lengthsTail
               else pushLengths cols lengthsTail)
            rows (map (fun _ => []) firstValues).

(** The vote of the column of index [i], added to [vote]. *)
Definition castVote (types : Types.t) (lengthsTail : list (list nat))
  (vote : Z) (i : nat) (col : string) : Z :=
  let firstType := nth i (Types.first types) EmptyString in
  let tailType := nth i (Types.tail types) EmptyString in
  if negb (String.eqb firstType tailType) && String.eqb firstType "string"
  then (vote + 2)%Z
  else
    let lengths := nth i lengthsTail [] in
    let sum := sumLengths lengths in
    let avg := (ofNat sum / ofNat (List.length lengths))%float in
    let diffSqSum :=
      fold_left (fun diffSqSum d =>
                   (diffSqSum + (avg - ofNat d) * (avg - ofNat d))%float)
                lengths 0%float in
    let sd := (diffSqSum / ofNat (List.length lengths))%float in
    let tolerance := (2 * sd)%float in
    if (tolerance <? PrimFloat.abs (ofNat (String.length col) - avg))%float
    then (vote + 1)%Z else (vote - 1)%Z.

(** [firstValues.forEach(function(col, i) { ... })], from index [i] on. *)
Fixpoint castVotes (types : Types.t) (lengthsTail : list (list nat))
  (vote : Z) (i : nat) (cols : list string) : Z :=
  match cols with
  | [] => vote
  | col :: cols' =>
      castVotes types lengthsTail (castVote types lengthsTail vote i col)
                (S i) cols'
  end.

(** [hasHeader(parsedSample)]. *)
Definition hasHeader (parsedSample : list (list string)) : Header.t :=
  let types := getTypes parsedSample in
  let vote :=
    match parsedSample with
    | [] => 0%Z
    | firstValues :: rows =>
        castVotes types (lengthsOfTail firstValues rows) 0 0 firstValues
    end in
  let hasHeader := (0 <? vote)%Z in
  {| Header.types := if hasHeader then Types.tail types else Types.all types;
     Header.hasHeader := hasHeader |}.

(** ** The sniffer *)

Module Options.
(** The options object. [hasHeader] is [None] when the property is
    [undefined] or [null] (the program tests it with [== undefined]). *)
Record t : Type := {
  newlineStr : jsopt;
  delimiter : jsopt;
  quoteChar : jsopt;
  hasHeader : option bool
}.
Definition empty : t :=
  {| newlineStr := Undefined; delimiter := Undefined;
     quoteChar := Undefined; hasHeader := None |}.
End Options.

Module Result.
Record t : Type := {
  warnings : list string;
  newlineStr : string;
  delimiter : jsopt;
  quoteChar : jsopt;
  hasHeader : bool;
  types : list string;
  labels : option (list string);
  records : list (list string)
}.
End Result.

Inductive outcome : Type :=
| Returns (r : Result.t)
| Throws (message : string).

Definition noNewline : string := "No newline characters found in your file...".

(** The text of a value inside a concatenation. *)
Definition toString (x : jsopt) : string :=
  match x with
  | Undefined => "undefined"
  | Null => "null"
  | Str s => s
  end.

Definition ofOption (x : option string) : jsopt :=
  match x with
  | Some s => Str s
  | None => Null
  end.

(** A sniffer is built from the set of allowed delimiters:
    [new CSVSniffer(delims)], [None] when [delims] is not given. *)
Definition CSVSniffer : Type := option (list string).

(** [options.newlineStr || getNewlineStr(sample)]; [None] is [null]. *)
Definition resolveNewline (sample : string) (options : Options.t)
  : option string :=
  if falsy (Options.newlineStr options) then getNewlineStr sample
  else Some (toString (Options.newlineStr options)).

Module Guess.
(** The quote character, the delimiter and the warnings of the result after
    the block that tests [options.quoteChar === undefined]. *)
Record t : Type := {
  quoteChar : jsopt;
  delimiter : jsopt;
  warnings : list string
}.
End Guess.

Definition warning (proposed : jsopt) (believed : string) : string :=
  ("Difference found in delimiters. User proposed " ++ toString proposed
   ++ " but we believe it should be " ++ believed)%string.

(** [options.delimiter !== d] for a string [d]. *)
Definition differs (x : jsopt) (d : string) : bool :=
  match x with
  | Str s => negb (String.eqb s d)
  | _ => true
  end.

(** [result.delimiter = options.delimiter; if (options.quoteChar === undefined) ... else ...]. *)
Definition patternGuess (this : CSVSniffer) (sample newlineStr : string)
  (options : Options.t) : Guess.t :=
  let unchanged (quoteChar : jsopt) :=
    {| Guess.quoteChar := quoteChar;
       Guess.delimiter := Options.delimiter options;
       Guess.warnings := [] |} in
  match Options.quoteChar options with
  | Undefined =>
      let quoteAndDelim := guessQuoteAndDelimiter sample newlineStr this in
      match delim quoteAndDelim, quote quoteAndDelim with
      | Some d, Some q =>
          if JS.truthy d
             && (String.eqb q (JS.str1 JS.SQUOTE)
                 || String.eqb q (JS.str1 JS.DQUOTE))
          then
            match Options.delimiter options with
            | Undefined =>
                {| Guess.quoteChar := Str q; Guess.delimiter := Str d;
                   Guess.warnings := [] |}
            | proposed =>
                {| Guess.quoteChar := Str q; Guess.delimiter := proposed;
                   Guess.warnings :=
                     if differs proposed d then [warning proposed d] else [] |}
            end
          else unchanged Null
      | _, _ => unchanged Null
      end
  | given => unchanged given
  end.

(** [if (!result.delimiter) result.delimiter = guessDelimiter(...)]. *)
Definition resolveDelimiter (this : CSVSniffer) (sample newlineStr : string)
  (delimiter : jsopt) : jsopt :=
  if falsy delimiter then ofOption (guessDelimiter sample newlineStr this)
  else delimiter.

(** [if (options.hasHeader == undefined) ... else ...]. *)
Definition resolveHeader (options : Options.t)
  (parsedSample : list (list string)) : Header.t :=
  match Options.hasHeader options with
  | None => hasHeader parsedSample
  | Some b =>
      {| Header.types := if b then Types.tail (getTypes parsedSample)
                         else Types.all (getTypes parsedSample);
         Header.hasHeader := b |}
  end.

(** The end of [sniff]: labels and records. [slice(0, 1)[0]] is row 0;
    [shift] removes it from the records. *)
Definition assemble (warnings : list string) (newlineStr : string)
  (delimiter quoteChar : jsopt) (header : Header.t)
  (parsedSample : list (list string)) : Result.t :=
  let shifted := Header.hasHeader header && (0 <? List.length parsedSample) in
  {| Result.warnings := warnings;
     Result.newlineStr := newlineStr;
     Result.delimiter := delimiter;
     Result.quoteChar := quoteChar;
     Result.hasHeader := Header.hasHeader header;
     Result.types := Header.types header;
     Result.labels := if shifted then Some (nth 0 parsedSample []) else None;
     Result.records := if shifted then List.tl parsedSample else parsedSample |}.

(** [CSVSniffer.prototype.sniff(sample, options)]; [options] is [None] when
    the argument is missing. *)
Definition sniff (this : CSVSniffer) (sample : string)
  (options : option Options.t) : outcome :=
  let options := match options with Some o => o | None => Options.empty end in
  match resolveNewline sample options with
  | None => Throws noNewline
  | Some newlineStr =>
      let guess := patternGuess this sample newlineStr options in
      let delimiter :=
        resolveDelimiter this sample newlineStr (Guess.delimiter guess) in
      let quoteChar := Guess.quoteChar guess in
      let parsedSample := parseSample sample newlineStr delimiter quoteChar in
      Returns (assemble (Guess.warnings guess) newlineStr delimiter quoteChar
                        (resolveHeader options parsedSample) parsedSample)
  end.

(** * Properties *)

(** ** The type lattice *)

(** The three type tags, and their order [integer < float < string]. *)
Definition isType (t : string) : Prop := In t ["integer"; "float"; "string"].

Definition rank (t : string) : nat :=
  if String.eqb t "integer" then 0
  else if String.eqb t "float" then 1
  else 2.

Definition typeLe (a b : string) : Prop :=
  isType a /\ isType b /\ rank a <= rank b.

(** The successive accumulated types of a column that starts at [t] and
    receives [values] in turn. *)
Fixpoint history (values : list string) (t : string) : list string :=
  match values with
  | [] => [t]
  | v :: values' => t :: history values' (getAccumulatedType v t)
  end.

(** ** Sample texts used below *)

Definition sampleABC : string :=
  ("a,b,c" ++ LF ++ "1,2,3" ++ LF ++ "4,5,6" ++ LF)%string.

Definition sampleCommaSpace : string :=
  ("a, b" ++ LF ++ "c, d" ++ LF)%string.

Definition sampleTwoByTwo : string :=
  ("a,b" ++ LF ++ "c,d" ++ LF)%string.

(** Samples with quoted fields. *)
Definition sampleQuoted : string :=
  ("x,'name','age'" ++ LF ++ "y,'bob','30'" ++ LF)%string.

Definition sampleNames : string :=
  ("'name','age'" ++ LF ++ "'bob','30'" ++ LF ++ "'ann','25'" ++ LF)%string.

(** A single column. *)
Definition sampleDigits : string :=
  ("1" ++ LF ++ "2" ++ LF ++ "3" ++ LF ++ "4" ++ LF ++ "5" ++ LF ++ "6" ++ LF)%string.

(** The first element of the preference list that is a candidate. *)
Definition preferred (delims : list string) : option string :=
  find (fun d => JS.includes d delims) knownDelimiters.

(** Options that supply the four values. *)
Definition supplied (newlineStr : string) (delimiter quoteChar : jsopt)
  (hasHeader : bool) : Options.t :=
  {| Options.newlineStr := Str newlineStr; Options.delimiter := delimiter;
     Options.quoteChar := quoteChar; Options.hasHeader := Some hasHeader |}.

(** ** The header and the records of a result *)

(** The table that [sniff] parsed, recomputed from the dialect of its
    result. *)
Definition parsedTable (sample : string) (r : Result.t) : list (list string) :=
  parseSample sample (Result.newlineStr r) (Result.delimiter r)
              (Result.quoteChar r).

(** The relation between a result and the parsed table, with row 0 taken
    off when [removed] holds: labels, records, and the count of rows. *)
Definition headerSplit (removed : bool) (r : Result.t)
  (table : list (list string)) : Prop :=
  Result.labels r = (if removed then Some (nth 0 table []) else None) /\
  Result.records r = (if removed then List.tl table else table) /\
  List.length (Result.records r) + (if removed then 1 else 0)
  = List.length table.

(** ** The vote, column by column *)

Definition sumZ (l : list Z) : Z := fold_right Z.add 0%Z l.

(** Mean and variance of the field lengths of a column, as binary64
    numbers. For an empty column both are NaN. *)
Definition mean (lengths : list nat) : float :=
  (ofNat (sumLengths lengths) / ofNat (List.length lengths))%float.

Definition variance (lengths : list nat) : float :=
  (fold_left (fun acc d =>
                (acc + (mean lengths - ofNat d) * (mean lengths - ofNat d))%float)
             lengths 0%float
   / ofNat (List.length lengths))%float.

(** The vote of one column. *)
Definition columnVote (firstType tailType : string) (headerLength : nat)
  (tailLengths : list nat) : Z :=
  if negb (String.eqb firstType tailType) && String.eqb firstType "string"
  then 2%Z
  else if (2 * variance tailLengths
           <? PrimFloat.abs (ofNat headerLength - mean tailLengths))%float
       then 1%Z
       else (-1)%Z.

(** The fields of column [i] in the rows after row 0 that have [n] fields,
    [n] being the number of fields of row 0. *)
Definition tailColumn (n i : nat) (rows : list (list string)) : list string :=
  map (fun cols => nth i cols EmptyString)
      (filter (fun cols => List.length cols =? n) rows).

Definition firstTypeOf (row0 : list string) (i : nat) : string :=
  getAccumulatedType (nth i row0 EmptyString) "integer".

Definition tailTypeOf (row0 : list string) (rows : list (list string))
  (i : nat) : string :=
  fold_left (fun t v => getAccumulatedType v t)
            (tailColumn (List.length row0) i rows) "integer".

(** One vote per column of row 0. *)
Definition votes (table : list (list string)) : list Z :=
  match table with
  | [] => []
  | row0 :: rows =>
      map (fun i =>
             columnVote (firstTypeOf row0 i) (tailTypeOf row0 rows i)
                        (String.length (nth i row0 EmptyString))
                        (map String.length
                             (tailColumn (List.length row0) i rows)))
          (seq 0 (List.length row0))
  end.

(** ** Rows and delimiters, for the parser with quotes *)

(** The text of each row that the parser emits: a row ends where the
    newline string is met outside quotes and not escaped; its text runs
    from the character after the place where the previous row ended (the
    parser steps over one character there) up to that place. [esc] and
    [inq] tell whether the next character is escaped and whether the scan
    is inside quotes, [cur] is the text of the row so far. *)
Fixpoint rowTexts (newlineStr : string) (quotechar : jsopt) (rest : string)
  (esc inq : bool) (cur : string) : list string :=
  match rest with
  | EmptyString => []
  | String c rest' =>
      if esc then
        rowTexts newlineStr quotechar rest' false inq (cur ++ JS.str1 c)
      else if Ascii.eqb c JS.BACKSLASH then
        rowTexts newlineStr quotechar rest' true inq (cur ++ JS.str1 c)
      else if isChar c quotechar then
        rowTexts newlineStr quotechar rest' false (negb inq) (cur ++ JS.str1 c)
      else if negb inq && String.prefix newlineStr rest then
        cur :: rowTexts newlineStr quotechar rest' false false EmptyString
      else
        rowTexts newlineStr quotechar rest' false inq (cur ++ JS.str1 c)
  end.

(** The number of occurrences of the delimiter in the text of a row that
    are neither escaped by a backslash nor inside quotes. A character that
    acts as the escape or as the quote is no occurrence. *)
Fixpoint delimiterCount (delimiter quotechar : jsopt) (row : string)
  (esc inq : bool) : nat :=
  match row with
  | EmptyString => 0
  | String c row' =>
      if esc then delimiterCount delimiter quotechar row' false inq
      else if Ascii.eqb c JS.BACKSLASH then
        delimiterCount delimiter quotechar row' true inq
      else if isChar c quotechar then
        delimiterCount delimiter quotechar row' false (negb inq)
      else if negb inq && isChar c delimiter then
        S (delimiterCount delimiter quotechar row' false false)
      else delimiterCount delimiter quotechar row' false inq
  end.

(** The field that is open at the end of a row: the text after the last
    such occurrence of the delimiter, without the quotes and without the
    backslashes that escape. *)
Fixpoint lastField (delimiter quotechar : jsopt) (row : string)
  (esc inq : bool) (cur : string) : string :=
  match row with
  | EmptyString => cur
  | String c row' =>
      if esc then
        lastField delimiter quotechar row' false inq (cur ++ JS.str1 c)
      else if Ascii.eqb c JS.BACKSLASH then
        lastField delimiter quotechar row' true inq cur
      else if isChar c quotechar then
        lastField delimiter quotechar row' false (negb inq) cur
      else if negb inq && isChar c delimiter then
        lastField delimiter quotechar row' false false EmptyString
      else lastField delimiter quotechar row' false inq (cur ++ JS.str1 c)
  end.

(** The texts of the rows of a sample, from its first character on. *)
Definition rowsOf (sample newlineStr : string) (quotechar : jsopt)
  : list string :=
  rowTexts newlineStr quotechar sample false false EmptyString.

(** Reading the text of one row, field by field. *)
Record line : Type := {
  fields : list string;
  pending : string;
  quoted : bool;
  escaped : bool
}.

Definition lineStart : line :=
  {| fields := []; pending := EmptyString; quoted := false; escaped := false |}.

Definition lineStep (delimiter quotechar : jsopt) (l : line) (c : ascii) : line :=
  let literal :=
    {| fields := fields l; pending := (pending l ++ JS.str1 c)%string;
       quoted := quoted l; escaped := false |} in
  if escaped l then literal
  else if Ascii.eqb c JS.BACKSLASH then
    {| fields := fields l; pending := pending l;
       quoted := quoted l; escaped := true |}
  else if isChar c quotechar then
    {| fields := fields l; pending := pending l;
       quoted := negb (quoted l); escaped := false |}
  else if negb (quoted l) && isChar c delimiter then
    {| fields := fields l ++ [pending l]; pending := EmptyString;
       quoted := false; escaped := false |}
  else literal.

Fixpoint lineRun (delimiter quotechar : jsopt) (row : string) (l : line) : line :=
  match row with
  | EmptyString => l
  | String c row' =>
      lineRun delimiter quotechar row' (lineStep delimiter quotechar l c)
  end.

(** The row as the parser emits it: an empty last field is dropped. *)
Definition lineClose (l : line) : list string :=
  if JS.isEmpty (pending l) then fields l else fields l ++ [pending l].

(** ** Further notions used by the properties of the second part *)

(** The least upper bound of two type tags. *)
Definition joinType (a b : string) : string :=
  if rank a <=? rank b then b else a.

(** The type of a single value: what it makes of a column that is still
    integer. *)
Definition typeOf (v : string) : string := getAccumulatedType v "integer".

(** The rows after row 0 that the statistics use: those with as many fields
    as row 0. *)
Definition usable (row0 : list string) (rows : list (list string))
  : list (list string) :=
  filter (fun cols => List.length cols =? List.length row0) rows.

(** One step of the loop of [getTypes] over the rows after row 0. *)
Definition tailStep (n : nat) (tail cols : list string) : list string :=
  if negb (List.length cols =? n) then tail else accumulate cols tail.

(** A newline string for which the character classes of the four
    expressions are as [delimiterClass] and [contentClass] give them: one
    without backslash, closing bracket, caret and hyphen. *)
Definition plainNewline (newlineStr : string) : bool :=
  negb (JS.mem JS.BACKSLASH newlineStr || JS.mem "]" newlineStr
        || JS.mem "^" newlineStr || JS.mem "-" newlineStr).

(** The number of matches that carry [x] as quote, and as delimiter. *)
Definition sameAs (x : string) (y : option string) : bool :=
  match y with
  | Some s => String.eqb s x
  | None => false
  end.

Definition quoteVotes (x : string) (matches : list found) : nat :=
  List.length (filter (fun m => sameAs x (quote m)) matches).

Definition delimVotes (x : string) (matches : list found) : nat :=
  List.length (filter (fun m => sameAs x (delim m)) matches).

(** The number of occurrences of a character in a line. *)
Fixpoint occurrences (c : ascii) (line : string) : nat :=
  match line with
  | EmptyString => 0
  | String a line' => (if Ascii.eqb a c then 1 else 0) + occurrences c line'
  end.

(** The sum of the values that a frequency table holds at index [freq],
    and the sum of all its values. *)
Fixpoint metaAt (freq : nat) (t : list (nat * nat)) : nat :=
  match t with
  | [] => 0
  | (f, m) :: t' => (if f =? freq then m else 0) + metaAt freq t'
  end.

Definition metaSum (t : list (nat * nat)) : nat :=
  fold_left (fun sum '(_, d) => sum + d) t 0.

(** The text left after the last occurrence of the newline string: the
    incomplete last line. *)
Definition lastFragment (newlineStr sample : string) : string :=
  snd (JS.splitOn newlineStr sample 0 EmptyString).

(** A text in which the quote character does not occur. *)
Definition unquoted (quotechar : jsopt) (s : string) : Prop :=
  forall a, JS.mem a s = true -> isChar a quotechar = false.

(** While no backslash is read, no character is escaped and no quote
    character enters a field. *)
Definition quoteFree (quotechar : jsopt) (l : line) : Prop :=
  escaped l = false /\ unquoted quotechar (pending l) /\
  Forall (unquoted quotechar) (fields l).

(** The options that give back to [sniff] the dialect and the header of a
    result. *)
Definition again (r : Result.t) : Options.t :=
  {| Options.newlineStr := Str (Result.newlineStr r);
     Options.delimiter := Result.delimiter r;
     Options.quoteChar := Result.quoteChar r;
     Options.hasHeader := Some (Result.hasHeader r) |}.

(** A result without its warnings. *)
Definition quiet (r : Result.t) : Result.t :=
  {| Result.warnings := [];
     Result.newlineStr := Result.newlineStr r;
     Result.delimiter := Result.delimiter r;
     Result.quoteChar := Result.quoteChar r;
     Result.hasHeader := Result.hasHeader r;
     Result.types := Result.types r;
     Result.labels := Result.labels r;
     Result.records := Result.records r |}.

(** The options that [sniff] works with. *)
Definition given (options : option Options.t) : Options.t :=
  match options with Some o => o | None => Options.empty end.

(** ** Type accumulation is monotone *)

Lemma typeLe_refl t : isType t -> typeLe t t.
Proof. intros H; repeat split; auto. Qed.

Lemma typeLe_trans a b c : typeLe a b -> typeLe b c -> typeLe a c.
Proof.
  intros (Ha & _ & Hab) (_ & Hc & Hbc); repeat split; auto; lia.
Qed.

Lemma getAccumulatedType_step v t :
  isType t -> typeLe t (getAccumulatedType v t).
Proof.
  intros Ht; assert (Ht' := Ht).
  destruct Ht as [<- | [<- | [<- | []]]];
    unfold getAccumulatedType; simpl;
    destruct (JS.isFinite (JS.toNumber v)); simpl;
    try destruct (JS.rem1NonZero (JS.toNumber v)); simpl;
    unfold typeLe, isType, rank; simpl; intuition lia.
Qed.

Lemma history_above values :
  forall t, isType t -> Forall (typeLe t) (history values t).
Proof.
  induction values as [| v values IH]; intros t Ht; simpl.
  - constructor; [apply typeLe_refl; assumption | constructor].
  - pose proof (getAccumulatedType_step v t Ht) as Hstep.
    constructor; [apply typeLe_refl; assumption |].
    assert (Hnext : isType (getAccumulatedType v t)) by apply Hstep.
    specialize (IH _ Hnext).
    eapply Forall_impl; [| exact IH].
    intros a Ha; eapply typeLe_trans; eassumption.
Qed.

(** C7: for a type [t] of the lattice and any value [v], the accumulated
    type [getAccumulatedType v t] is a type of the lattice that is at least
    [t] in the order integer < float < string; and along any sequence of
    values, every accumulated type is at most every later one: a column only
    moves integer -> float -> string. *)
Theorem getAccumulatedType_monotone (t : string) :
  isType t ->
  (forall v, typeLe t (getAccumulatedType v t)) /\
  (forall values, StronglySorted typeLe (history values t)).
Proof.
  intros Ht; split.
  - intros v; apply getAccumulatedType_step; assumption.
  - intros values; revert t Ht.
    induction values as [| v values IH]; intros t Ht; simpl.
    + repeat constructor.
    + pose proof (getAccumulatedType_step v t Ht) as Hstep.
      assert (Hnext : isType (getAccumulatedType v t)) by apply Hstep.
      constructor; [apply IH; assumption |].
      eapply Forall_impl; [| apply history_above; exact Hnext].
      intros a Ha; eapply typeLe_trans; eassumption.
Qed.

Lemma getAccumulatedType_monotone_witness :
  isType "integer" /\
  typeLe "integer" (getAccumulatedType "1.5" "integer") /\
  StronglySorted typeLe (history ["1"; "2.5"; "x"; "3"] "integer").
Proof.
  assert (H : isType "integer") by (left; reflexivity).
  split; [exact H |].
  split; apply (getAccumulatedType_monotone "integer" H).
Defined.

(** ** The empty field *)

Lemma span_whitespace s :
  JS.all JS.isWhiteSpace s = true ->
  JS.span JS.isWhiteSpace s = (s, EmptyString).
Proof.
  induction s as [| c s IH]; simpl; [reflexivity |].
  intros H; apply andb_prop in H as [Hc Hs].
  rewrite Hc, (IH Hs); reflexivity.
Qed.

Lemma toNumber_whitespace s :
  JS.all JS.isWhiteSpace s = true -> JS.toNumber s = JS.Fin 0 0.
Proof.
  intros H; unfold JS.toNumber, JS.trim, JS.trimLeft.
  rewrite (span_whitespace s H); reflexivity.
Qed.

(** C10: the empty string, and any string of white space only, converts to
    the number zero, which is finite and has no fractional part; so for each
    type [t] of the lattice the exposed [getAccumulatedType] returns [t] on
    such a value. An empty field keeps integer at integer and weakens no
    column. *)
Theorem getAccumulatedType_empty (t : string) :
  isType t ->
  (forall this, exposedGetAccumulatedType this EmptyString t = t) /\
  (forall s, JS.all JS.isWhiteSpace s = true ->
             JS.isFinite (JS.toNumber s) = true /\
             JS.rem1NonZero (JS.toNumber s) = false /\
             getAccumulatedType s t = t).
Proof.
  intros Ht.
  assert (Hws : forall s, JS.all JS.isWhiteSpace s = true ->
                          getAccumulatedType s t = t).
  { intros s Hs; unfold getAccumulatedType.
    rewrite (toNumber_whitespace s Hs).
    destruct Ht as [<- | [<- | [<- | []]]]; reflexivity. }
  split; [intros this; apply Hws; reflexivity |].
  intros s Hs; rewrite (toNumber_whitespace s Hs).
  repeat split; apply Hws, Hs.
Qed.

Lemma getAccumulatedType_empty_witness :
  isType "integer" /\
  getAccumulatedType EmptyString "integer" = "integer" /\
  getAccumulatedType "   " "integer" = "integer".
Proof.
  assert (H : isType "integer") by (left; reflexivity).
  split; [exact H |].
  destruct (getAccumulatedType_empty "integer" H) as [H0 Hws].
  split; [exact (H0 None) | apply (Hws "   "); reflexivity].
Defined.

(** ** The concrete scenario *)

(** C1: sniffing the sample of three lines [a,b,c], [1,2,3], [4,5,6], each
    ended by a line feed, with no options, returns the line feed as newline
    string, the comma as delimiter, no quote character, a header, three
    integer columns, the labels a, b, c and the two records that follow (and
    no warning). *)
Theorem sniff_sampleABC :
  sniff None sampleABC None =
  Returns {| Result.warnings := [];
             Result.newlineStr := LF;
             Result.delimiter := Str ",";
             Result.quoteChar := Null;
             Result.hasHeader := true;
             Result.types := ["integer"; "integer"; "integer"];
             Result.labels := Some ["a"; "b"; "c"];
             Result.records := [["1"; "2"; "3"]; ["4"; "5"; "6"]] |}.
Proof. vm_compute. reflexivity. Qed.

(** Two more scenarios: quoted fields with a header, and a single column
    of numbers, for which no delimiter is found. *)
Example sniff_sampleNames :
  sniff None sampleNames None =
  Returns {| Result.warnings := [];
             Result.newlineStr := LF;
             Result.delimiter := Str ",";
             Result.quoteChar := Str "'";
             Result.hasHeader := true;
             Result.types := ["string"; "integer"];
             Result.labels := Some ["name"; "age"];
             Result.records := [["bob"; "30"]; ["ann"; "25"]] |}.
Proof. vm_compute. reflexivity. Qed.

Example sniff_sampleDigits :
  sniff None sampleDigits None =
  Returns {| Result.warnings := [];
             Result.newlineStr := LF;
             Result.delimiter := Null;
             Result.quoteChar := Null;
             Result.hasHeader := false;
             Result.types := ["integer"];
             Result.labels := None;
             Result.records := [["1"]; ["2"]; ["3"]; ["4"]; ["5"]; ["6"]] |}.
Proof. vm_compute. reflexivity. Qed.

(** The conversion to a number, on the shapes of field that matter. *)
Example getAccumulatedType_shapes :
  map (fun v => getAccumulatedType v "integer")
      ["12"; "-3"; "1.5"; ".5"; "5."; "1e3"; "1e-1"; "0x1F"; " 7 ";
       "abc"; "1,5"; "Infinity"; "1e400"; "12px"; "."]
  = ["integer"; "integer"; "float"; "float"; "integer"; "integer"; "float";
     "integer"; "integer";
     "string"; "string"; "string"; "string"; "string"; "string"].
Proof. vm_compute. reflexivity. Qed.

(** Newline detection on samples with one kind of terminator, and on a
    sample where the line feed also ends a line on its own. *)
Example getNewlineStr_samples :
  getNewlineStr ("a,b" ++ CRLF ++ "c,d" ++ CRLF) = Some CRLF /\
  getNewlineStr ("a,b" ++ CR ++ "c,d" ++ CR) = Some CR /\
  getNewlineStr ("a" ++ CRLF ++ "b" ++ CRLF ++ "c" ++ LF) = Some LF.
Proof. vm_compute. repeat split. Qed.

(** ** A sample without line terminator *)

Lemma append_assoc (a b c : string) :
  ((a ++ b) ++ c)%string = (a ++ (b ++ c))%string.
Proof. induction a as [| x a IH]; simpl; [reflexivity | rewrite IH; reflexivity]. Qed.

Lemma append_nil_r (a : string) : (a ++ EmptyString)%string = a.
Proof. induction a as [| x a IH]; simpl; [reflexivity | rewrite IH; reflexivity]. Qed.

Lemma splitOn_absent c sep s :
  forall cur, JS.mem c s = false ->
  JS.splitOn (String c sep) s 0 cur = ([], (cur ++ s)%string).
Proof.
  induction s as [| a s IH]; intros cur H; simpl.
  - rewrite append_nil_r; reflexivity.
  - simpl in H. apply orb_false_elim in H as [Hca Hs].
    destruct (ascii_dec c a) as [-> | _].
    + rewrite Ascii.eqb_refl in Hca; discriminate.
    + rewrite (IH _ Hs), append_assoc; reflexivity.
Qed.

(** Joining the pieces of a split with the separator gives the string
    back. *)
Lemma prefix_drop (sep s : string) :
  String.prefix sep s = true ->
  s = (sep ++ JS.drop (String.length sep) s)%string.
Proof.
  revert s; induction sep as [| a sep IH]; intros [| b s]; simpl;
    try reflexivity; try discriminate.
  destruct (ascii_dec a b) as [-> | _]; [| discriminate].
  intros H; rewrite <- (IH s H); reflexivity.
Qed.

Lemma concat_cons (sep x : string) (l : list string) :
  l <> [] ->
  String.concat sep (x :: l) = (x ++ sep ++ String.concat sep l)%string.
Proof. destruct l; [contradiction | reflexivity]. Qed.

Lemma splitOn_join (a : ascii) (sep' : string) : forall s skip cur,
  let sep := String a sep' in
  String.concat sep (fst (JS.splitOn sep s skip cur)
                     ++ [snd (JS.splitOn sep s skip cur)])
  = (cur ++ JS.drop skip s)%string.
Proof.
  intros s skip cur sep; revert skip cur.
  induction s as [| c s IH]; intros skip cur.
  - destruct skip; simpl; rewrite append_nil_r; reflexivity.
  - destruct skip as [| k].
    + cbn [JS.splitOn].
      destruct (String.prefix sep (String c s)) eqn:Hp.
      * specialize (IH (String.length sep - 1) EmptyString).
        destruct (JS.splitOn sep s (String.length sep - 1) EmptyString)
          as [ls tl].
        cbn [fst snd] in *.
        change ((cur :: ls) ++ [tl]) with (cur :: (ls ++ [tl])).
        rewrite concat_cons by (destruct ls; simpl; intros E; discriminate E).
        rewrite IH; cbn [JS.drop append].
        rewrite (prefix_drop sep (String c s) Hp) at 1.
        subst sep; cbn [String.length JS.drop].
        replace (S (String.length sep') - 1) with (String.length sep') by lia.
        reflexivity.
      * rewrite IH, append_assoc; reflexivity.
    + cbn [JS.splitOn JS.drop]; apply IH.
Qed.

Lemma split_join (sep s : string) :
  JS.truthy sep = true -> String.concat sep (JS.split sep s) = s.
Proof.
  destruct sep as [| a sep']; [discriminate |]; intros _.
  unfold JS.split.
  pose proof (splitOn_join a sep' s 0 EmptyString) as H.
  cbv zeta in H.
  destruct (JS.splitOn (String a sep') s 0 EmptyString) as [ls tl].
  exact H.
Qed.

Lemma terminated_absent c sep s :
  JS.mem c s = false -> JS.terminated (String c sep) s = [].
Proof.
  intros H; unfold JS.terminated; rewrite (splitOn_absent c sep s _ H).
  reflexivity.
Qed.

Lemma countLines_absent sample :
  JS.mem JS.LF sample = false -> JS.mem JS.CR sample = false ->
  countLines sample = [(CRLF, 1); (LFCR, 1); (LF, 1); (CR, 1)].
Proof.
  intros Hlf Hcr; unfold countLines, candidates; simpl.
  unfold CRLF, LFCR, LF, CR, JS.str1.
  rewrite !(terminated_absent JS.CR _ sample Hcr).
  rewrite !(terminated_absent JS.LF _ sample Hlf).
  reflexivity.
Qed.

Lemma getNewlineStr_remaining_nil sample :
  remaining (eliminate (countLines sample)) = [] -> getNewlineStr sample = None.
Proof. intros H; unfold getNewlineStr; rewrite H; reflexivity. Qed.

(** C2: a sample that holds neither a line feed nor a carriage return makes
    [sniff], called without the option [newlineStr], throw the no-newline
    error: nothing is returned. And the newline detection answers [null]
    whenever no candidate is left with more than one line. *)
Theorem sniff_no_newline :
  (forall (this : CSVSniffer) (sample : string) (options : option Options.t),
      JS.mem JS.LF sample = false ->
      JS.mem JS.CR sample = false ->
      match options with
      | Some o => Options.newlineStr o = Undefined
      | None => True
      end ->
      sniff this sample options = Throws noNewline) /\
  (forall sample : string,
      remaining (eliminate (countLines sample)) = [] ->
      getNewlineStr sample = None).
Proof.
  split; [| exact getNewlineStr_remaining_nil].
  intros this sample options Hlf Hcr Hopt.
  assert (Hnone : getNewlineStr sample = None).
  { apply getNewlineStr_remaining_nil.
    rewrite (countLines_absent sample Hlf Hcr); reflexivity. }
  unfold sniff, resolveNewline.
  destruct options as [o |]; simpl.
  - rewrite Hopt; simpl; rewrite Hnone; reflexivity.
  - rewrite Hnone; reflexivity.
Qed.

Lemma sniff_no_newline_witness :
  sniff (Some [","; ";"]) "a,b;c" None = Throws noNewline /\
  getNewlineStr "a,b;c" = None.
Proof.
  split.
  - apply (proj1 sniff_no_newline (Some [","; ";"]) "a,b;c" None);
      [reflexivity | reflexivity | exact I].
  - apply (proj2 sniff_no_newline "a,b;c"); reflexivity.
Defined.

(** ** Several candidate delimiters *)

(** The search goes through twenty consistencies; any fuel from 21 on
    gives the same list, the loop ending on its own test. *)
Lemma consistencies_fuel (fuel : nat) :
  consistencies (21 + fuel) 1.0%float = consistencies 32 1.0%float.
Proof. cbv -[PrimFloat.sub PrimFloat.ltb]. reflexivity. Qed.

(** Whatever the candidates, the delimiter returned is the first of them
    in scan order. *)
Lemma guessDelimiter_first sample newlineStr delimiters :
  guessDelimiter sample newlineStr delimiters
  = if List.length (asciiTables sample newlineStr) =? 0 then None
    else hd_error (search delimiters (modes (asciiTables sample newlineStr))
                          (List.length (asciiTables sample newlineStr))
                          (consistencies 32 1.0%float)).
Proof.
  unfold guessDelimiter.
  destruct (List.length (asciiTables sample newlineStr) =? 0); [reflexivity |].
  destruct (search _ _ _ _) as [| d1 [| d2 ds]]; reflexivity.
Qed.

(** C6: on the sample of the two lines [a, b] and [c, d] the search ends
    with two candidates, the space and the comma. The first element of the
    preference list among them is the comma, yet [guessDelimiter] returns
    the space, the first candidate in scan order: the value returned inside
    the loop over the preference list is discarded. *)
Theorem guessDelimiter_ignores_preference :
  search None (modes (asciiTables sampleCommaSpace LF)) 2
         (consistencies 32 1.0%float) = [" "; ","] /\
  preferred [" "; ","] = Some "," /\
  guessDelimiter sampleCommaSpace LF None = Some " " /\
  exists r, sniff None sampleCommaSpace None = Returns r /\
            Result.delimiter r = Str " ".
Proof.
  repeat split; try (vm_compute; reflexivity).
  eexists; split; vm_compute; reflexivity.
Qed.

(** ** Options that supply every value *)

Lemma sniff_supplied_kept (this : CSVSniffer) (sample newlineStr : string)
  (delimiter quoteChar : jsopt) (hasHeader : bool) :
  JS.truthy newlineStr = true ->
  falsy delimiter = false ->
  quoteChar <> Undefined ->
  exists r,
    sniff this sample (Some (supplied newlineStr delimiter quoteChar hasHeader))
    = Returns r /\
    Result.newlineStr r = newlineStr /\ Result.delimiter r = delimiter /\
    Result.quoteChar r = quoteChar /\ Result.hasHeader r = hasHeader.
Proof.
  intros Hnl Hd Hq.
  unfold sniff, resolveNewline, patternGuess, resolveDelimiter, supplied.
  cbn [Options.newlineStr Options.delimiter Options.quoteChar
       Options.hasHeader falsy toString].
  assert (Hf : JS.isEmpty newlineStr = false).
  { unfold JS.truthy in Hnl; destruct (JS.isEmpty newlineStr);
      [discriminate | reflexivity]. }
  rewrite Hf.
  destruct quoteChar as [| | q]; [contradiction | |];
    cbn [Guess.delimiter Guess.quoteChar]; rewrite Hd;
    eexists; repeat split.
Qed.

(** C9: with the options newline string = line feed, delimiter = null,
    quote character = null and hasHeader = false, all four supplied, the
    result for the sample of the two lines [a,b] and [c,d] carries the
    comma as delimiter, not the null that was supplied: a delimiter that is
    null is detected anew by the frequency-based guesser. *)
Theorem sniff_null_delimiter_replaced :
  sniff None sampleTwoByTwo (Some (supplied LF Null Null false)) =
  Returns {| Result.warnings := [];
             Result.newlineStr := LF;
             Result.delimiter := Str ",";
             Result.quoteChar := Null;
             Result.hasHeader := false;
             Result.types := ["string"; "string"];
             Result.labels := None;
             Result.records := [["a"; "b"]; ["c"; "d"]] |}.
Proof. vm_compute. reflexivity. Qed.

(** ** The search for matches advances *)

Lemma matchItems_consumes (items : list Regex.item) :
  forall atStart s caps caps' rest,
    Regex.matchItems items atStart s caps = Some (caps', rest) ->
    String.length rest + Regex.groups items <= String.length s.
Proof.
  induction items as [| it k IH]; intros atStart s caps caps' rest.
  - simpl; intros H; injection H as _ <-; lia.
  - destruct it as [n cls | cls | n | |]; cbn [Regex.matchItems Regex.groups].
    + destruct s as [| c s']; [discriminate |].
      destruct (cls c); [| discriminate].
      intros H; apply IH in H; simpl; lia.
    + revert atStart; induction s as [| c s' IHs]; intros atStart.
      * destruct (Regex.matchItems k atStart EmptyString caps) eqn:E;
          [| discriminate].
        intros H; injection H as ->; apply IH in E; exact E.
      * destruct (Regex.matchItems k atStart (String c s') caps) eqn:E.
        -- intros H; injection H as ->; apply IH in E; exact E.
        -- destruct (cls c); [| discriminate].
           intros H; apply IHs in H; simpl; lia.
    + destruct (Regex.capture n caps) as [c0 |].
      * destruct s as [| c s']; [discriminate |].
        destruct (Ascii.eqb c c0); [| discriminate].
        intros H; apply IH in H; simpl; lia.
      * apply IH.
    + destruct atStart; [apply IH | discriminate].
    + destruct (JS.isEmpty s); [apply IH | discriminate].
Qed.

(** A match of any of the four expressions takes a character at least. *)
Lemma exprs_consume newlineStr d atStart s caps rest :
  In d (exprs newlineStr) ->
  Regex.matchItems (items d) atStart s [] = Some (caps, rest) ->
  String.length rest < String.length s.
Proof.
  intros Hd H; apply matchItems_consumes in H.
  destruct Hd as [<- | [<- | [<- | [<- | []]]]]; simpl in H; lia.
Qed.

(** ** The allowed delimiters *)

Lemma allowed_In (l : list string) (d : string) :
  allowed (Some l) d = true -> In d l.
Proof.
  unfold allowed, JS.includes; intros H.
  apply existsb_exists in H as (x & Hx & Heq).
  apply String.eqb_eq in Heq; subst; assumption.
Qed.

Lemma round_allowed delimiters ms nrLines consistency d :
  In d (round delimiters ms nrLines consistency) -> allowed delimiters d = true.
Proof.
  unfold round; intros H.
  apply in_flat_map in H as ((i & e) & _ & H).
  destruct ((maxFreq e =? 0) || (mode e <=? 0)%Z); [destruct H |].
  destruct (_ <=? _)%float; simpl in H; [| destruct H].
  destruct (allowed delimiters (JS.str1 (JS.chr i))) eqn:Ha; [| destruct H].
  destruct H as [<- | []]; exact Ha.
Qed.

Lemma search_allowed delimiters ms nrLines cs d :
  In d (search delimiters ms nrLines cs) -> allowed delimiters d = true.
Proof.
  induction cs as [| c cs IH]; simpl; [intros [] |].
  destruct (round delimiters ms nrLines c) eqn:Hr; [exact IH |].
  rewrite <- Hr; apply round_allowed.
Qed.

Lemma guessDelimiter_allowed sample newlineStr delimiters d :
  guessDelimiter sample newlineStr delimiters = Some d ->
  allowed delimiters d = true.
Proof.
  unfold guessDelimiter.
  destruct (List.length (asciiTables sample newlineStr) =? 0); [discriminate |].
  destruct (search _ _ _ _) as [| d1 [| d2 ds]] eqn:Hs; [discriminate | |];
    intros H; injection H as <-;
    apply (search_allowed delimiters
             (modes (asciiTables sample newlineStr))
             (List.length (asciiTables sample newlineStr))
             (consistencies 32 1.0%float));
    rewrite Hs; left; reflexivity.
Qed.

(** The keys of a counter object are among the keys that were counted. *)
Lemma insertIndex_In v k l x :
  In x (map snd (insertIndex v k l)) -> x = k \/ In x (map snd l).
Proof.
  induction l as [| (v', k') l IH]; simpl.
  - intros [<- | []]; left; reflexivity.
  - destruct (v <? v')%Z; simpl.
    + intros [<- | H]; [left; reflexivity | right; exact H].
    + intros [<- | H]; [right; left; reflexivity |].
      destruct (IH H) as [-> | H']; [left; reflexivity | right; right; exact H'].
Qed.

Lemma keys_In {A : Type} (o : table A) (x : string) :
  In x (keys o) -> In x (map fst o).
Proof.
  unfold keys; intros H; apply in_app_or in H as [H | H].
  - revert H.
    assert (G : forall (acc : list (Z * string)),
               In x (map snd
                       (fold_left
                          (fun acc '(k, _) =>
                             match arrayIndex k with
                             | Some v => insertIndex v k acc
                             | None => acc
                             end) o acc)) ->
               In x (map snd acc) \/ In x (map fst o)).
    { induction o as [| (k, a) o IH]; intros acc; simpl; [left; assumption |].
      intros H; apply IH in H as [H | H]; [| right; right; exact H].
      destruct (arrayIndex k); [| left; exact H].
      apply insertIndex_In in H as [-> | H];
        [right; left; reflexivity | left; exact H]. }
    intros H; apply G in H as [[] | H]; exact H.
  - apply in_map_iff in H as ((k, a) & <- & H).
    apply filter_In in H as [H _].
    apply in_map_iff; exists (k, a); split; [reflexivity | exact H].
Qed.

Lemma mostCounted_In (o : table nat) (d : string) :
  mostCounted o = Some d -> In d (keys o).
Proof.
  unfold mostCounted.
  assert (G : forall ks best maxCount,
             fst (fold_left
                    (fun '(best, maxCount) d =>
                       let n := Z.of_nat (get 0 d o) in
                       if (maxCount <? n)%Z then (Some d, n)
                       else (best, maxCount))
                    ks (best, maxCount)) = Some d ->
             best = Some d \/ In d ks).
  { induction ks as [| k ks IH]; intros best maxCount; simpl;
      [left; assumption |].
    destruct (Z.ltb maxCount (Z.of_nat (get 0 k o))); intros H;
      apply IH in H as [H | H]; auto.
    injection H as ->; right; left; reflexivity. }
  intros H; apply G in H as [H | H]; [discriminate | exact H].
Qed.

Lemma bump_keys k o x :
  In x (map fst (bump k o)) -> x = k \/ In x (map fst o).
Proof.
  induction o as [| (k', n) o IH]; simpl.
  - intros [<- | []]; left; reflexivity.
  - destruct (String.eqb k k'); simpl; intros [<- | H]; auto.
    destruct (IH H); auto.
Qed.

Lemma tallyDelims_allowed delimiters matches x :
  In x (map fst (tallyDelims delimiters matches)) -> allowed delimiters x = true.
Proof.
  unfold tallyDelims.
  assert (G : forall o,
             (forall y, In y (map fst o) -> allowed delimiters y = true) ->
             In x (map fst
                     (fold_left
                        (fun o d =>
                           match delim d with
                           | Some x => if allowed delimiters x then bump x o else o
                           | None => o
                           end) matches o)) ->
             allowed delimiters x = true).
  { induction matches as [| m matches IH]; intros o Ho; simpl; [apply Ho |].
    apply IH.
    destruct (delim m) as [y |]; [| exact Ho].
    destruct (allowed delimiters y) eqn:Hy; [| exact Ho].
    intros z Hz; apply bump_keys in Hz as [-> | Hz]; [exact Hy | apply Ho, Hz]. }
  apply G; intros y [].
Qed.

Lemma guessQuoteAndDelimiter_allowed sample newlineStr delimiters d :
  delim (guessQuoteAndDelimiter sample newlineStr delimiters) = Some d ->
  allowed delimiters d = true.
Proof.
  unfold guessQuoteAndDelimiter, electQuoteAndDelimiter.
  destruct (firstMatches (exprs newlineStr) sample) as [| m ms];
    [discriminate |].
  simpl delim.
  destruct (mostCounted (tallyDelims delimiters (m :: ms))) as [x |] eqn:Hx;
    [| discriminate].
  destruct (String.eqb x LF); [discriminate |].
  intros H; injection H as <-.
  apply (tallyDelims_allowed delimiters (m :: ms)).
  apply keys_In, mostCounted_In, Hx.
Qed.

(** C8: with a set of allowed delimiters given to the constructor, the
    delimiter proposed by the pattern-based guesser and the one proposed by
    the frequency-based guesser are members of the set whenever they are not
    null; and the delimiter of a result of [sniff], when the options give
    none, is null or a member of the set. *)
Theorem detected_delimiter_allowed (allowedSet : list string) (sample : string) :
  (forall newlineStr d,
      delim (guessQuoteAndDelimiter sample newlineStr (Some allowedSet)) = Some d ->
      In d allowedSet) /\
  (forall newlineStr d,
      guessDelimiter sample newlineStr (Some allowedSet) = Some d ->
      In d allowedSet) /\
  (forall options r,
      match options with
      | Some o => falsy (Options.delimiter o) = true
      | None => True
      end ->
      sniff (Some allowedSet) sample options = Returns r ->
      Result.delimiter r = Null \/
      exists d, Result.delimiter r = Str d /\ In d allowedSet).
Proof.
  split; [| split].
  - intros newlineStr d H.
    apply allowed_In, (guessQuoteAndDelimiter_allowed sample newlineStr), H.
  - intros newlineStr d H.
    apply allowed_In, (guessDelimiter_allowed sample newlineStr), H.
  - intros options r Hopt.
    assert (Hguess : forall newlineStr,
               ofOption (guessDelimiter sample newlineStr (Some allowedSet)) = Null \/
               exists d,
                 ofOption (guessDelimiter sample newlineStr (Some allowedSet)) = Str d /\
                 In d allowedSet).
    { intros newlineStr.
      destruct (guessDelimiter sample newlineStr (Some allowedSet)) as [d |] eqn:Hd;
        [right | left; reflexivity].
      exists d; split; [reflexivity |].
      apply allowed_In, (guessDelimiter_allowed sample newlineStr), Hd. }
    set (o := match options with Some o => o | None => Options.empty end).
    assert (Hfalsy : falsy (Options.delimiter o) = true)
      by (subst o; destruct options; [exact Hopt | reflexivity]).
    unfold sniff; fold o.
    destruct (resolveNewline sample o) as [newlineStr |]; [| discriminate].
    intros H; injection H as <-; cbn [assemble Result.delimiter].
    unfold resolveDelimiter.
    destruct (falsy (Guess.delimiter
                       (patternGuess (Some allowedSet) sample newlineStr o)))
      eqn:Hg; [apply Hguess |].
    right. revert Hg. unfold patternGuess.
    destruct (Options.quoteChar o) as [| | q];
      cbn [Guess.delimiter]; try (rewrite Hfalsy; discriminate).
    destruct (delim (guessQuoteAndDelimiter sample newlineStr (Some allowedSet)))
      as [d |] eqn:Hd;
      cbn [Guess.delimiter]; try (rewrite Hfalsy; discriminate).
    destruct (quote (guessQuoteAndDelimiter sample newlineStr (Some allowedSet)))
      as [q |];
      cbn [Guess.delimiter]; try (rewrite Hfalsy; discriminate).
    destruct (JS.truthy d && _);
      cbn [Guess.delimiter]; try (rewrite Hfalsy; discriminate).
    destruct (Options.delimiter o) as [| | s] eqn:Hs;
      cbn [Guess.delimiter]; try (rewrite Hfalsy; discriminate).
    intros _; exists d; split; [reflexivity |].
    apply allowed_In, (guessQuoteAndDelimiter_allowed sample newlineStr), Hd.
Qed.

Lemma detected_delimiter_allowed_witness :
  In "," [","; ";"] /\
  In "," [","; ";"] /\
  exists r,
    sniff (Some [","; ";"]) sampleCommaSpace None = Returns r /\
    (Result.delimiter r = Null \/
     exists d, Result.delimiter r = Str d /\ In d [","; ";"]).
Proof.
  split; [| split].
  - apply (proj1 (detected_delimiter_allowed [","; ";"] sampleQuoted) LF ",").
    vm_compute; reflexivity.
  - apply (proj1 (proj2 (detected_delimiter_allowed [","; ";"] sampleCommaSpace))
             LF ",").
    vm_compute; reflexivity.
  - eexists; split; [vm_compute; reflexivity |].
    apply (proj2 (proj2 (detected_delimiter_allowed [","; ";"] sampleCommaSpace))
             None); [exact I | vm_compute; reflexivity].
Defined.

(** ** Labels and records *)

(** C5, as stated, fails: with the options newline = line feed, delimiter =
    comma, quote = apostrophe and hasHeader = true, the sample [abc] has no
    complete row, so the parsed table is empty; the result has hasHeader =
    true, labels = null and no record, and 0 + 1 is not the number of rows
    parsed. *)
Lemma header_split_counterexample :
  ~ (forall r,
        sniff None "abc" (Some (supplied LF (Str ",") (Str "'") true)) = Returns r ->
        headerSplit (Result.hasHeader r) r (parsedTable "abc" r)).
Proof.
  intros H.
  specialize (H _ eq_refl).
  destruct H as (_ & _ & H).
  vm_compute in H. discriminate H.
Qed.

(** C5, amended: in every result of [sniff], row 0 is taken off exactly when
    hasHeader is true and the parsed table is not empty. Then labels is row
    0 and records is the rest of the table; otherwise labels is null and
    records is the whole table. So the number of records, plus one when row
    0 was taken off, is the number of rows parsed. *)
Theorem header_split (this : CSVSniffer) (sample : string)
  (options : option Options.t) (r : Result.t) :
  sniff this sample options = Returns r ->
  headerSplit (Result.hasHeader r && (0 <? List.length (parsedTable sample r)))
              r (parsedTable sample r).
Proof.
  unfold sniff.
  destruct (resolveNewline sample _) as [newlineStr |]; [| discriminate].
  intros H; injection H as <-.
  unfold headerSplit, parsedTable, assemble; simpl.
  set (table := parseSample sample newlineStr _ _).
  destruct (Header.hasHeader _); simpl; [| auto].
  destruct table as [| row0 rows]; simpl; repeat split; lia.
Qed.

Lemma header_split_witness :
  exists r,
    sniff None sampleABC None = Returns r /\
    headerSplit true r [["a"; "b"; "c"]; ["1"; "2"; "3"]; ["4"; "5"; "6"]].
Proof.
  eexists; split; [vm_compute; reflexivity |].
  apply (header_split None sampleABC None); vm_compute; reflexivity.
Defined.

(** ** The header vote *)

Lemma accumulate_length cols : forall types,
  List.length (accumulate cols types) = List.length types.
Proof.
  induction cols as [| col cols IH]; intros [| ty types]; simpl; auto.
Qed.

Lemma accumulate_nth cols : forall types i,
  List.length cols = List.length types ->
  i < List.length types ->
  nth i (accumulate cols types) EmptyString
  = getAccumulatedType (nth i cols EmptyString) (nth i types EmptyString).
Proof.
  induction cols as [| col cols IH]; intros [| ty types] i Hlen Hi;
    simpl in *; try lia.
  destruct i as [| i]; [reflexivity |].
  apply IH; lia.
Qed.

Lemma pushLengths_length cols : forall lengthsTail,
  List.length (pushLengths cols lengthsTail) = List.length lengthsTail.
Proof.
  induction cols as [| col cols IH]; intros [| l lengthsTail]; simpl; auto.
Qed.

Lemma pushLengths_nth cols : forall lengthsTail i,
  List.length cols = List.length lengthsTail ->
  i < List.length lengthsTail ->
  nth i (pushLengths cols lengthsTail) []
  = nth i lengthsTail [] ++ [String.length (nth i cols EmptyString)].
Proof.
  induction cols as [| col cols IH]; intros [| l lengthsTail] i Hlen Hi;
    simpl in *; try lia.
  destruct i as [| i]; [reflexivity |].
  apply IH; lia.
Qed.

(** The tail profile, read column by column. *)
Lemma tail_fold n i rows : forall types,
  List.length types = n -> i < n ->
  let tail :=
    fold_left (fun tail cols =>
                 if negb (List.length cols =? n) then tail
                 else accumulate cols tail) rows types in
  List.length tail = n /\
  nth i tail EmptyString
  = fold_left (fun t v => getAccumulatedType v t) (tailColumn n i rows)
              (nth i types EmptyString).
Proof.
  induction rows as [| cols rows IH]; intros types Hlen Hi; simpl.
  - split; [assumption | reflexivity].
  - unfold tailColumn; simpl.
    destruct (List.length cols =? n) eqn:Hc; simpl.
    + apply Nat.eqb_eq in Hc.
      destruct (IH (accumulate cols types)) as [H1 H2];
        [rewrite accumulate_length; assumption | assumption |].
      split; [exact H1 |].
      rewrite H2, accumulate_nth by lia. reflexivity.
    + apply IH; assumption.
Qed.

(** The lengths of the tail, read column by column. *)
Lemma lengths_fold n i rows : forall lengthsTail,
  List.length lengthsTail = n -> i < n ->
  nth i (fold_left (fun lengthsTail cols =>
                      if negb (List.length cols =? n) then lengthsTail
                      else pushLengths cols lengthsTail) rows lengthsTail) []
  = nth i lengthsTail [] ++ map String.length (tailColumn n i rows).
Proof.
  induction rows as [| cols rows IH]; intros lengthsTail Hlen Hi; simpl.
  - rewrite app_nil_r; reflexivity.
  - unfold tailColumn; simpl.
    destruct (List.length cols =? n) eqn:Hc; simpl.
    + apply Nat.eqb_eq in Hc.
      rewrite IH by (rewrite ?pushLengths_length; assumption).
      rewrite pushLengths_nth by lia.
      rewrite <- app_assoc; reflexivity.
    + apply IH; assumption.
Qed.

Lemma nth_constant {A B : Type} (b d : B) (l : list A) i :
  i < List.length l -> nth i (map (fun _ => b) l) d = b.
Proof.
  revert i; induction l as [| a l IH]; intros [| i] H; simpl in *;
    try lia; [reflexivity | apply IH; lia].
Qed.

Lemma first_nth row0 i :
  i < List.length row0 ->
  nth i (map (fun col => getAccumulatedType col "integer") row0) EmptyString
  = firstTypeOf row0 i.
Proof.
  intros H; unfold firstTypeOf.
  rewrite (nth_indep _ EmptyString (getAccumulatedType EmptyString "integer"))
    by (rewrite length_map; exact H).
  apply (map_nth (fun col => getAccumulatedType col "integer")).
Qed.

Lemma getTypes_tail_nth row0 rows i :
  i < List.length row0 ->
  nth i (Types.tail (getTypes (row0 :: rows))) EmptyString
  = tailTypeOf row0 rows i.
Proof.
  intros H; unfold getTypes, tailTypeOf; cbn [Types.tail].
  rewrite length_map.
  destruct (tail_fold (List.length row0) i rows
              (map (fun _ => "integer") row0)) as [_ H2];
    [apply length_map | exact H |].
  rewrite H2, nth_constant by exact H. reflexivity.
Qed.

Lemma lengthsOfTail_nth row0 rows i :
  i < List.length row0 ->
  nth i (lengthsOfTail row0 rows) []
  = map String.length (tailColumn (List.length row0) i rows).
Proof.
  intros H; unfold lengthsOfTail.
  rewrite lengths_fold by (rewrite ?length_map; auto).
  rewrite nth_constant by exact H. reflexivity.
Qed.

(** The vote cast by the program for column [i] is the vote of the column. *)
Lemma castVote_column row0 rows vote i :
  i < List.length row0 ->
  castVote (getTypes (row0 :: rows)) (lengthsOfTail row0 rows) vote i
           (nth i row0 EmptyString)
  = (vote + columnVote (firstTypeOf row0 i) (tailTypeOf row0 rows i)
                       (String.length (nth i row0 EmptyString))
                       (map String.length
                            (tailColumn (List.length row0) i rows)))%Z.
Proof.
  intros H; unfold castVote, columnVote.
  rewrite getTypes_tail_nth, lengthsOfTail_nth by exact H.
  replace (nth i (Types.first (getTypes (row0 :: rows))) EmptyString)
    with (firstTypeOf row0 i) by (symmetry; apply first_nth, H).
  destruct (negb _ && _); [reflexivity |].
  fold (mean (map String.length (tailColumn (List.length row0) i rows))).
  fold (variance (map String.length (tailColumn (List.length row0) i rows))).
  destruct (_ <? _)%float; reflexivity.
Qed.

Lemma castVotes_sum row0 rows : forall cols i vote,
  (forall k, k < List.length cols ->
             nth k cols EmptyString = nth (i + k) row0 EmptyString) ->
  i + List.length cols = List.length row0 ->
  castVotes (getTypes (row0 :: rows)) (lengthsOfTail row0 rows) vote i cols
  = (vote + sumZ (map (fun i =>
                         columnVote (firstTypeOf row0 i) (tailTypeOf row0 rows i)
                                    (String.length (nth i row0 EmptyString))
                                    (map String.length
                                         (tailColumn (List.length row0) i rows)))
                      (seq i (List.length cols))))%Z.
Proof.
  induction cols as [| col cols IH]; intros i vote Hnth Hlen;
    cbn [castVotes List.length seq map sumZ fold_right].
  - lia.
  - simpl in Hlen.
    assert (Hcol : col = nth i row0 EmptyString).
    { specialize (Hnth 0); simpl in Hnth; rewrite Nat.add_0_r in Hnth.
      apply Hnth; lia. }
    rewrite IH.
    + rewrite Hcol, castVote_column by lia. unfold sumZ. lia.
    + intros k Hk. specialize (Hnth (S k)); simpl in Hnth.
      rewrite Nat.add_succ_r in Hnth. apply Hnth; lia.
    + lia.
Qed.

Lemma columnVote_values firstType tailType headerLength tailLengths :
  In (columnVote firstType tailType headerLength tailLengths)
     [2%Z; 1%Z; (-1)%Z].
Proof.
  unfold columnVote.
  destruct (negb _ && _); [left; reflexivity |].
  destruct (_ <? _)%float; [right; left | right; right; left]; reflexivity.
Qed.

(** C3: in the header vote every column of row 0 casts one vote: +2 when the
    type of its first-row field differs from the type of its tail and is
    string; otherwise +1 when the length of the header field is further from
    the mean of the tail lengths than twice their variance, and -1 if not.
    [hasHeader] reports whether the sum of the votes is positive, and
    returns the tail profile if it is and the all profile if it is not. *)
Theorem hasHeader_vote (table : list (list string)) :
  List.length (votes table) = List.length (nth 0 table []) /\
  Forall (fun v => In v [2%Z; 1%Z; (-1)%Z]) (votes table) /\
  Header.hasHeader (hasHeader table) = (0 <? sumZ (votes table))%Z /\
  Header.types (hasHeader table)
  = (if Header.hasHeader (hasHeader table) then Types.tail (getTypes table)
     else Types.all (getTypes table)).
Proof.
  split; [| split; [| split]].
  - destruct table as [| row0 rows]; simpl; [reflexivity |].
    rewrite length_map, length_seq; reflexivity.
  - destruct table as [| row0 rows]; simpl; [constructor |].
    apply Forall_forall; intros v Hv.
    apply in_map_iff in Hv as (i & <- & _). apply columnVote_values.
  - destruct table as [| row0 rows]; [reflexivity |].
    unfold hasHeader; cbn [Header.hasHeader].
    rewrite (castVotes_sum row0 rows row0 0 0%Z);
      [reflexivity | intros; reflexivity | reflexivity].
  - reflexivity.
Qed.

(** ** Fields and delimiters *)

Section Parser.

Variables (newlineStr : string) (delimiter quotechar : jsopt).

Lemma lineRun_app (a b : string) : forall l,
  lineRun delimiter quotechar (a ++ b) l
  = lineRun delimiter quotechar b (lineRun delimiter quotechar a l).
Proof.
  induction a as [| c a IH]; intros l; simpl; [reflexivity | apply IH].
Qed.

Lemma lineRun_snoc (a : string) (c : ascii) (l : line) :
  lineRun delimiter quotechar (a ++ JS.str1 c) l
  = lineStep delimiter quotechar (lineRun delimiter quotechar a l) c.
Proof. rewrite lineRun_app; reflexivity. Qed.

Lemma lineRun_count (row : string) : forall l,
  List.length (fields (lineRun delimiter quotechar row l))
  = List.length (fields l)
    + delimiterCount delimiter quotechar row (escaped l) (quoted l).
Proof.
  induction row as [| c row IH]; intros l; simpl; [lia |].
  rewrite IH; unfold lineStep.
  destruct (escaped l); simpl; [reflexivity |].
  destruct (Ascii.eqb c JS.BACKSLASH); simpl; [reflexivity |].
  destruct (isChar c quotechar); simpl; [reflexivity |].
  destruct (negb (quoted l) && isChar c delimiter) eqn:Hd; simpl.
  - rewrite length_app; simpl; lia.
  - reflexivity.
Qed.

Lemma lineRun_pending (row : string) : forall l,
  pending (lineRun delimiter quotechar row l)
  = lastField delimiter quotechar row (escaped l) (quoted l) (pending l).
Proof.
  induction row as [| c row IH]; intros l; simpl; [reflexivity |].
  rewrite IH; unfold lineStep.
  destruct (escaped l); simpl; [reflexivity |].
  destruct (Ascii.eqb c JS.BACKSLASH); simpl; [reflexivity |].
  destruct (isChar c quotechar); simpl; [reflexivity |].
  destruct (negb (quoted l) && isChar c delimiter); reflexivity.
Qed.

(** The state machine, in the middle of a row whose text so far is [cur],
    emits the rows of [rowTexts], each read by [lineRun]. *)
Lemma run_rows (rest : string) : forall (res : list (list string)) (cur : string),
  let l := lineRun delimiter quotechar cur lineStart in
  run newlineStr delimiter quotechar rest
      {| result := res; vals := fields l; curVal := pending l;
         insideQuotes := quoted l; escape := escaped l |}
  = res ++ map (fun row => lineClose (lineRun delimiter quotechar row lineStart))
               (rowTexts newlineStr quotechar rest (escaped l) (quoted l) cur).
Proof.
  induction rest as [| c rest IH]; intros res cur l.
  - simpl; rewrite app_nil_r; reflexivity.
  - cbn [run rowTexts].
    pose proof (IH res (cur ++ JS.str1 c)%string) as Hnext.
    cbv zeta in Hnext; rewrite lineRun_snoc in Hnext; fold l in Hnext.
    unfold lineStep in Hnext; unfold step.
    cbn [result vals curVal insideQuotes escape].
    destruct (escaped l); [exact Hnext |].
    destruct (Ascii.eqb c JS.BACKSLASH); [exact Hnext |].
    destruct (isChar c quotechar); [exact Hnext |].
    destruct (quoted l); [exact Hnext |].
    cbn [negb andb] in *.
    destruct (String.prefix newlineStr (String c rest)).
    + pose proof (IH (res ++ [lineClose l]) EmptyString) as Hrow.
      cbv zeta in Hrow; cbn [lineRun lineStart fields pending quoted escaped] in Hrow.
      unfold lineClose at 1 in Hrow.
      rewrite Hrow, <- app_assoc; reflexivity.
    + destruct (isChar c delimiter); exact Hnext.
Qed.

(** The table of the parser with quotes, row by row. *)
Lemma parseSample_rows (sample : string) :
  falsy quotechar = false ->
  parseSample sample newlineStr delimiter quotechar
  = map (fun row => lineClose (lineRun delimiter quotechar row lineStart))
        (rowsOf sample newlineStr quotechar).
Proof.
  intros Hq; unfold parseSample, rowsOf; rewrite Hq.
  apply (run_rows sample [] EmptyString).
Qed.

Lemma lineClose_length (row : string) :
  List.length (lineClose (lineRun delimiter quotechar row lineStart))
  = delimiterCount delimiter quotechar row false false
    + (if JS.isEmpty (lastField delimiter quotechar row false false EmptyString)
       then 0 else 1).
Proof.
  unfold lineClose.
  rewrite (lineRun_pending row lineStart); cbn [lineStart escaped quoted pending].
  destruct (JS.isEmpty _).
  - rewrite (lineRun_count row lineStart); simpl; lia.
  - rewrite length_app, (lineRun_count row lineStart); simpl; lia.
Qed.

End Parser.

(** C4, as stated, fails: with the line feed as newline string, the comma as
    delimiter and the apostrophe as quote character, the sample made of the
    one row [a,] has one delimiter outside quotes in its row, hence two
    fields by the claim; the parser emits the single field [a]. *)
Lemma field_count_counterexample :
  map (@List.length string)
      (parseSample ("a," ++ LF) LF (Str ",") (Str "'"))
  <> map (fun row => 1 + delimiterCount (Str ",") (Str "'") row false false)
         (rowsOf ("a," ++ LF) LF (Str "'")).
Proof. vm_compute. discriminate. Qed.

(** C4, amended: for every sample, newline string, delimiter and quote
    character that is not null (nor empty), the rows that the parser emits
    are the rows of the sample, and the number of fields of each is 1 plus
    the number of occurrences of the delimiter in the row that are neither
    escaped nor inside quotes -- except that a last field that is empty is
    dropped, so that the number of fields is then just that number of
    occurrences. *)
Theorem field_count (sample newlineStr : string) (delimiter quotechar : jsopt) :
  falsy quotechar = false ->
  map (@List.length string)
      (parseSample sample newlineStr delimiter quotechar)
  = map (fun row =>
           if JS.isEmpty (lastField delimiter quotechar row false false EmptyString)
           then delimiterCount delimiter quotechar row false false
           else 1 + delimiterCount delimiter quotechar row false false)
        (rowsOf sample newlineStr quotechar).
Proof.
  intros Hq.
  rewrite (parseSample_rows newlineStr delimiter quotechar sample Hq), map_map.
  apply map_ext; intros row.
  rewrite lineClose_length.
  destruct (JS.isEmpty _); lia.
Qed.

Lemma field_count_witness :
  map (@List.length string)
      (parseSample ("a,'b,c'," ++ LF ++ "d\,e,f" ++ LF) LF (Str ",") (Str "'"))
  = [2; 2].
Proof.
  rewrite (field_count ("a,'b,c'," ++ LF ++ "d\,e,f" ++ LF) LF (Str ",") (Str "'"));
    [| reflexivity].
  vm_compute; reflexivity.
Defined.

(** * Further properties of the code *)

(** ** Accumulation as a least upper bound *)

Lemma isType_cases t :
  isType t -> t = "integer" \/ t = "float" \/ t = "string".
Proof. intros [<- | [<- | [<- | []]]]; auto. Qed.

Lemma typeOf_isType v : isType (typeOf v).
Proof.
  unfold typeOf.
  apply (getAccumulatedType_step v "integer"); left; reflexivity.
Qed.

Lemma getAccumulatedType_join v t :
  isType t -> getAccumulatedType v t = joinType t (typeOf v).
Proof.
  intros Ht; unfold typeOf, getAccumulatedType.
  destruct (isType_cases t Ht) as [-> | [-> | ->]]; simpl;
    destruct (JS.isFinite (JS.toNumber v)); simpl;
    try destruct (JS.rem1NonZero (JS.toNumber v)); reflexivity.
Qed.

Lemma joinType_isType a b : isType a -> isType b -> isType (joinType a b).
Proof. intros Ha Hb; unfold joinType; destruct (_ <=? _); assumption. Qed.

Lemma joinType_comm_assoc a b c :
  isType a -> isType b -> isType c ->
  joinType (joinType a b) c = joinType (joinType a c) b.
Proof.
  intros Ha Hb Hc.
  destruct (isType_cases a Ha) as [-> | [-> | ->]];
    destruct (isType_cases b Hb) as [-> | [-> | ->]];
    destruct (isType_cases c Hc) as [-> | [-> | ->]]; reflexivity.
Qed.

Lemma getAccumulatedType_idem a t :
  isType t ->
  getAccumulatedType a (getAccumulatedType a t) = getAccumulatedType a t.
Proof.
  intros Ht.
  pose proof (typeOf_isType a) as Ha.
  assert (Hat : isType (getAccumulatedType a t))
    by apply (getAccumulatedType_step a t Ht).
  rewrite (getAccumulatedType_join a _ Hat), (getAccumulatedType_join a t Ht).
  destruct (isType_cases t Ht) as [-> | [-> | ->]];
    destruct (isType_cases _ Ha) as [-> | [-> | ->]]; reflexivity.
Qed.

Lemma getAccumulatedType_comm a b t :
  isType t ->
  getAccumulatedType a (getAccumulatedType b t)
  = getAccumulatedType b (getAccumulatedType a t).
Proof.
  intros Ht.
  assert (Hat : isType (getAccumulatedType a t))
    by apply (getAccumulatedType_step a t Ht).
  assert (Hbt : isType (getAccumulatedType b t))
    by apply (getAccumulatedType_step b t Ht).
  rewrite (getAccumulatedType_join a _ Hbt), (getAccumulatedType_join b _ Hat),
    (getAccumulatedType_join a t Ht), (getAccumulatedType_join b t Ht).
  apply joinType_comm_assoc; [exact Ht | apply typeOf_isType ..].
Qed.

(** X1: on the three type tags, accumulating a value is taking the least
    upper bound of the current type and the type of the value alone. Hence
    accumulating the same value twice changes nothing more, and two values
    can be accumulated in either order. *)
Theorem getAccumulatedType_lub (t : string) :
  isType t ->
  forall a b,
    getAccumulatedType a t = joinType t (getAccumulatedType a "integer") /\
    getAccumulatedType a (getAccumulatedType a t) = getAccumulatedType a t /\
    getAccumulatedType a (getAccumulatedType b t)
    = getAccumulatedType b (getAccumulatedType a t).
Proof.
  intros Ht a b; split; [apply getAccumulatedType_join, Ht | split].
  - apply getAccumulatedType_idem, Ht.
  - apply getAccumulatedType_comm, Ht.
Qed.

Lemma getAccumulatedType_lub_witness :
  getAccumulatedType "1.5" (getAccumulatedType "x" "integer")
  = getAccumulatedType "x" (getAccumulatedType "1.5" "integer").
Proof.
  apply (getAccumulatedType_lub "integer"); left; reflexivity.
Defined.

(** ** The profiles of [getTypes] *)

Lemma accumulate_isType cols : forall types,
  Forall isType types -> Forall isType (accumulate cols types).
Proof.
  induction cols as [| col cols IH]; intros [| ty types] H; simpl; auto.
  inversion H as [| ? ? Hty Htys]; subst.
  constructor; [apply (getAccumulatedType_step col ty Hty) | apply IH, Htys].
Qed.

Lemma accumulate_comm cols1 : forall cols2 types,
  Forall isType types ->
  accumulate cols1 (accumulate cols2 types)
  = accumulate cols2 (accumulate cols1 types).
Proof.
  induction cols1 as [| c1 cols1 IH]; intros [| c2 cols2] [| ty types] H;
    simpl; try reflexivity.
  inversion H as [| ? ? Hty Htys]; subst.
  rewrite (IH cols2 types Htys).
  f_equal. apply getAccumulatedType_comm, Hty.
Qed.

Lemma tailStep_isType n tail cols :
  Forall isType tail -> Forall isType (tailStep n tail cols).
Proof.
  intros H; unfold tailStep; destruct (negb _);
    [exact H | apply accumulate_isType, H].
Qed.

Lemma tailStep_comm n tail r1 r2 :
  Forall isType tail ->
  tailStep n (tailStep n tail r1) r2 = tailStep n (tailStep n tail r2) r1.
Proof.
  intros H; unfold tailStep.
  destruct (negb (List.length r1 =? n)), (negb (List.length r2 =? n));
    try reflexivity.
  symmetry; apply accumulate_comm, H.
Qed.

Lemma tail_permutation n rows rows' :
  Permutation rows rows' ->
  forall tail, Forall isType tail ->
    fold_left (tailStep n) rows tail = fold_left (tailStep n) rows' tail.
Proof.
  induction 1 as [| r rows rows' _ IH | r1 r2 rows | rows1 rows2 rows3 _ IH1 _ IH2];
    intros tail Ht; simpl.
  - reflexivity.
  - apply IH, tailStep_isType, Ht.
  - rewrite (tailStep_comm n tail r2 r1 Ht); reflexivity.
  - rewrite (IH1 tail Ht); apply IH2, Ht.
Qed.

Lemma integers_isType {A : Type} (l : list A) :
  Forall isType (map (fun _ => "integer") l).
Proof.
  induction l; simpl; constructor; [left; reflexivity | assumption].
Qed.

Lemma nth_map_lt {A B : Type} (f : A -> B) (l : list A) (d : A) (e : B) i :
  i < List.length l -> nth i (map f l) e = f (nth i l d).
Proof.
  revert i; induction l as [| a l IH]; intros [| i] H; simpl in *;
    try lia; [reflexivity | apply IH; lia].
Qed.

Lemma fold_left_pointwise {A B : Type} (f g : A -> B -> A) (l : list B) :
  (forall a b, f a b = g a b) ->
  forall a, fold_left f l a = fold_left g l a.
Proof.
  intros H; induction l as [| b l IH]; intros a; simpl;
    [reflexivity | rewrite H; apply IH].
Qed.

Lemma getTypes_unfold row0 rows :
  getTypes (row0 :: rows)
  = let tail := fold_left (tailStep (List.length row0)) rows
                          (map (fun _ => "integer") row0) in
    {| Types.first := map typeOf row0; Types.tail := tail;
       Types.all := accumulate row0 tail |}.
Proof.
  unfold getTypes; cbv zeta; f_equal.
  - apply fold_left_pointwise; intros tail cols.
    unfold tailStep; rewrite length_map; reflexivity.
  - f_equal; apply fold_left_pointwise; intros tail cols.
    unfold tailStep; rewrite length_map; reflexivity.
Qed.

(** X2: the types that [getTypes] computes do not depend on the order of
    the rows that follow row 0. *)
Theorem getTypes_permutation (row0 : list string) (rows rows' : list (list string)) :
  Permutation rows rows' ->
  getTypes (row0 :: rows) = getTypes (row0 :: rows').
Proof.
  intros H; rewrite !getTypes_unfold; cbv zeta.
  rewrite (tail_permutation _ rows rows' H _ (integers_isType row0)).
  reflexivity.
Qed.

Lemma getTypes_permutation_witness :
  getTypes [["h"; "k"]; ["1"; "x"]; ["2.5"; "3"]]
  = getTypes [["h"; "k"]; ["2.5"; "3"]; ["1"; "x"]].
Proof. apply getTypes_permutation, perm_swap. Defined.

Lemma tail_usable n rows : forall tail,
  fold_left (tailStep n) rows tail
  = fold_left (tailStep n) (filter (fun cols => List.length cols =? n) rows) tail.
Proof.
  induction rows as [| cols rows IH]; intros tail; simpl; [reflexivity |].
  unfold tailStep at 2.
  destruct (List.length cols =? n) eqn:Hc; simpl.
  - unfold tailStep at 3; rewrite Hc; apply IH.
  - apply IH.
Qed.

Lemma lengths_usable n rows : forall lengthsTail,
  fold_left (fun lengthsTail cols =>
               if negb (List.length cols =? n) then lengthsTail
               else pushLengths cols lengthsTail) rows lengthsTail
  = fold_left (fun lengthsTail cols =>
                 if negb (List.length cols =? n) then lengthsTail
                 else pushLengths cols lengthsTail)
              (filter (fun cols => List.length cols =? n) rows) lengthsTail.
Proof.
  induction rows as [| cols rows IH]; intros lengthsTail; simpl; [reflexivity |].
  destruct (List.length cols =? n) eqn:Hc; simpl.
  - rewrite Hc; apply IH.
  - apply IH.
Qed.

(** X3: a row whose number of fields differs from that of row 0 changes
    neither the types nor the header vote: [getTypes] and [hasHeader] give
    the same answer on the table without such rows. *)
Theorem unusable_rows_ignored (row0 : list string) (rows : list (list string)) :
  getTypes (row0 :: rows) = getTypes (row0 :: usable row0 rows) /\
  hasHeader (row0 :: rows) = hasHeader (row0 :: usable row0 rows).
Proof.
  assert (Ht : getTypes (row0 :: rows) = getTypes (row0 :: usable row0 rows)).
  { rewrite !getTypes_unfold; cbv zeta; unfold usable.
    rewrite <- (tail_usable (List.length row0) rows); reflexivity. }
  split; [exact Ht |].
  unfold hasHeader; rewrite <- Ht.
  unfold lengthsOfTail, usable.
  rewrite <- (lengths_usable (List.length row0) rows); reflexivity.
Qed.

Lemma tail_length n rows : forall tail,
  List.length (fold_left (tailStep n) rows tail) = List.length tail.
Proof.
  induction rows as [| cols rows IH]; intros tail; simpl; [reflexivity |].
  rewrite IH; unfold tailStep; destruct (negb _);
    [reflexivity | apply accumulate_length].
Qed.

Lemma tail_isType n rows : forall tail,
  Forall isType tail -> Forall isType (fold_left (tailStep n) rows tail).
Proof.
  induction rows as [| cols rows IH]; intros tail H; simpl; [exact H |].
  apply IH, tailStep_isType, H.
Qed.

Lemma typeOf_all_isType row0 : Forall isType (map typeOf row0).
Proof.
  induction row0; simpl; constructor; [apply typeOf_isType | assumption].
Qed.

(** X4: each of the three profiles of [getTypes] has one entry for each
    field of row 0, each entry is one of the three type tags, and for each
    column the entry of [all] is the least upper bound of its entries in
    [first] and [tail]. *)
Theorem getTypes_profiles (table : list (list string)) :
  let types := getTypes table in
  let n := List.length (nth 0 table []) in
  (List.length (Types.first types) = n /\
   List.length (Types.tail types) = n /\
   List.length (Types.all types) = n) /\
  (Forall isType (Types.first types) /\
   Forall isType (Types.tail types) /\
   Forall isType (Types.all types)) /\
  (forall i, i < n ->
     nth i (Types.all types) EmptyString
     = joinType (nth i (Types.tail types) EmptyString)
                (nth i (Types.first types) EmptyString)).
Proof.
  destruct table as [| row0 rows]; cbv zeta.
  - simpl; repeat split; try constructor. intros i Hi; lia.
  - rewrite getTypes_unfold; cbv zeta; cbn [Types.first Types.tail Types.all nth].
    set (tail := fold_left (tailStep (List.length row0)) rows
                           (map (fun _ => "integer") row0)).
    assert (Hlen : List.length tail = List.length row0)
      by (unfold tail; rewrite tail_length, length_map; reflexivity).
    assert (Hty : Forall isType tail)
      by (apply tail_isType, integers_isType).
    split; [| split].
    + rewrite length_map, accumulate_length; auto.
    + split; [apply typeOf_all_isType | split;
        [exact Hty | apply accumulate_isType, Hty]].
    + intros i Hi.
      rewrite accumulate_nth by lia.
      rewrite getAccumulatedType_join
        by (apply (proj1 (Forall_nth isType tail)); [exact Hty | lia]).
      f_equal; symmetry; apply nth_map_lt, Hi.
Qed.

Lemma getTypes_profiles_witness :
  nth 1 (Types.all (getTypes [["h"; "k"]; ["1"; "x"]; ["2.5"; "3"]])) EmptyString
  = joinType
      (nth 1 (Types.tail (getTypes [["h"; "k"]; ["1"; "x"]; ["2.5"; "3"]])) EmptyString)
      (nth 1 (Types.first (getTypes [["h"; "k"]; ["1"; "x"]; ["2.5"; "3"]])) EmptyString).
Proof.
  apply (getTypes_profiles [["h"; "k"]; ["1"; "x"]; ["2.5"; "3"]]).
  simpl; lia.
Defined.

(** ** Newline detection *)

Lemma winner_among (nrLines : string -> float) (l : list string) :
  forall winner winnerScore nl,
    fst (fold_left
           (fun '(winner, winnerScore) newlineStr =>
              let sc := nrLines newlineStr in
              if (sc <? winnerScore)%float
              then (Some newlineStr, sc) else (winner, winnerScore))
           l (winner, winnerScore)) = Some nl ->
    winner = Some nl \/ In nl l.
Proof.
  induction l as [| x l IH]; intros winner winnerScore nl; simpl.
  - intros H; left; exact H.
  - destruct (nrLines x <? winnerScore)%float; intros H;
      apply IH in H as [H | H]; auto.
    injection H as <-; right; left; reflexivity.
Qed.

Lemma getNewlineStr_In (sample newlineStr : string) :
  getNewlineStr sample = Some newlineStr -> In newlineStr candidates.
Proof.
  unfold getNewlineStr.
  set (nrLines := eliminate (countLines sample)).
  assert (Hrem : forall x, In x (remaining nrLines) -> In x candidates)
    by (intros x Hx; apply filter_In in Hx; apply Hx).
  destruct (remaining nrLines) as [| r1 [| r2 rs]] eqn:Hr.
  - discriminate.
  - intros H; injection H as <-; apply Hrem; left; reflexivity.
  - set (rem := r1 :: r2 :: rs) in *.
    assert (Hfin : forall x,
               In x (filter (fun nl => threshold <? get 0 nl nrLines) rem) ->
               In x candidates)
      by (intros x Hx; apply filter_In in Hx; apply Hrem, Hx).
    destruct (filter (fun nl => threshold <? get 0 nl nrLines) rem)
      as [| f1 [| f2 fs]] eqn:Hf.
    + intros H; apply find_some in H; apply Hrem, H.
    + intros H; injection H as <-; apply Hfin; left; reflexivity.
    + intros H.
      apply (winner_among (fun nl => score (get [] nl (lineLengths sample))))
        in H as [H | H]; [discriminate | apply Hfin, H].
Qed.

(** X5: when [getNewlineStr] finds a newline string, it is one of the four
    candidates: CR LF, LF CR, LF or CR. *)
Theorem getNewlineStr_candidate (sample newlineStr : string) :
  getNewlineStr sample = Some newlineStr -> In newlineStr candidates.
Proof. apply getNewlineStr_In. Qed.

Lemma getNewlineStr_candidate_witness :
  In CRLF candidates.
Proof.
  apply (getNewlineStr_candidate ("a,b" ++ CRLF ++ "c,d" ++ CRLF) CRLF).
  vm_compute; reflexivity.
Defined.

Lemma prefix_mem c sep : forall s,
  String.prefix sep s = true -> JS.mem c sep = true -> JS.mem c s = true.
Proof.
  induction sep as [| a sep IH]; intros [| b s]; simpl;
    try discriminate.
  destruct (ascii_dec a b) as [-> | _]; [| discriminate].
  intros Hp Hm; apply orb_prop in Hm as [Hm | Hm].
  - rewrite Hm; reflexivity.
  - rewrite (IH s Hp Hm); apply orb_true_r.
Qed.

Lemma splitOn_never c sep s :
  JS.mem c sep = true ->
  forall cur, JS.mem c s = false ->
  JS.splitOn sep s 0 cur = ([], (cur ++ s)%string).
Proof.
  intros Hsep; induction s as [| a s IH]; intros cur H.
  - simpl; rewrite append_nil_r; reflexivity.
  - cbn [JS.splitOn].
    destruct (String.prefix sep (String a s)) eqn:Hp.
    + rewrite (prefix_mem c sep _ Hp Hsep) in H; discriminate.
    + simpl in H; apply orb_false_elim in H as [_ Hs].
      rewrite (IH _ Hs), append_assoc; reflexivity.
Qed.

Lemma terminated_never c sep s :
  JS.mem c sep = true -> JS.mem c s = false -> JS.terminated sep s = [].
Proof.
  intros Hsep H; unfold JS.terminated.
  rewrite (splitOn_never c sep s Hsep _ H); reflexivity.
Qed.

Lemma splitOn_present c s : forall cur,
  JS.mem c s = true -> fst (JS.splitOn (JS.str1 c) s 0 cur) <> [].
Proof.
  induction s as [| a s IH]; intros cur H; [discriminate |].
  cbn [JS.splitOn JS.str1 String.prefix].
  destruct (ascii_dec c a) as [-> | Hne].
  - replace (String.prefix EmptyString s) with true by (destruct s; reflexivity).
    destruct (JS.splitOn _ s _ _); simpl; intros E; discriminate E.
  - apply IH. simpl in H.
    destruct (Ascii.eqb_spec c a); [contradiction | exact H].
Qed.

Lemma terminated_present c s :
  JS.mem c s = true ->
  exists n, List.length (JS.terminated (JS.str1 c) s) = S n.
Proof.
  intros H; unfold JS.terminated.
  pose proof (splitOn_present c s EmptyString H) as Hne.
  destruct (fst (JS.splitOn (JS.str1 c) s 0 EmptyString)) as [| l ls];
    [contradiction | exists (List.length ls); reflexivity].
Qed.

(** X6: a sample in which the line feed occurs and the carriage return
    does not has the line feed as its newline string; one in which the
    carriage return occurs and the line feed does not has the carriage
    return. *)
Theorem getNewlineStr_single (sample : string) :
  (JS.mem JS.LF sample = true -> JS.mem JS.CR sample = false ->
   getNewlineStr sample = Some LF) /\
  (JS.mem JS.CR sample = true -> JS.mem JS.LF sample = false ->
   getNewlineStr sample = Some CR).
Proof.
  split; intros Hin Hout.
  - destruct (terminated_present JS.LF sample Hin) as [n Hn].
    unfold getNewlineStr, countLines, candidates; cbn [map].
    fold LF in Hn; rewrite Hn.
    rewrite (terminated_never JS.CR CRLF sample eq_refl Hout),
      (terminated_never JS.CR LFCR sample eq_refl Hout),
      (terminated_never JS.CR CR sample eq_refl Hout).
    reflexivity.
  - destruct (terminated_present JS.CR sample Hin) as [n Hn].
    unfold getNewlineStr, countLines, candidates; cbn [map].
    fold CR in Hn; rewrite Hn.
    rewrite (terminated_never JS.LF CRLF sample eq_refl Hout),
      (terminated_never JS.LF LFCR sample eq_refl Hout),
      (terminated_never JS.LF LF sample eq_refl Hout).
    reflexivity.
Qed.

Lemma getNewlineStr_single_witness :
  getNewlineStr sampleABC = Some LF /\
  getNewlineStr ("a;b" ++ CR ++ "c;d" ++ CR ++ "e") = Some CR.
Proof.
  split.
  - apply (proj1 (getNewlineStr_single sampleABC)); reflexivity.
  - apply (proj2 (getNewlineStr_single ("a;b" ++ CR ++ "c;d" ++ CR ++ "e")));
      reflexivity.
Defined.

(** The counts after the elimination, as a function of the counts before. *)
Lemma eliminate_inner (nr a b c d : nat) :
  fold_left
    (fun nrLines newlineStr =>
       if get 0 newlineStr nrLines =? nr
       then set newlineStr 1 nrLines else nrLines)
    [LF; CR] [(CRLF, a); (LFCR, b); (LF, c); (CR, d)]
  = [(CRLF, a); (LFCR, b);
     (LF, if c =? nr then 1 else c); (CR, if d =? nr then 1 else d)].
Proof.
  cbn -[Nat.eqb].
  destruct (c =? nr); cbn -[Nat.eqb]; destruct (d =? nr); reflexivity.
Qed.

Lemma eliminate_counts (a b c d : nat) :
  eliminate [(CRLF, a); (LFCR, b); (LF, c); (CR, d)]
  = let c1 := if (1 <? a) && (c =? a) then 1 else c in
    let d1 := if (1 <? a) && (d =? a) then 1 else d in
    [(CRLF, a); (LFCR, b);
     (LF, if (1 <? b) && (c1 =? b) then 1 else c1);
     (CR, if (1 <? b) && (d1 =? b) then 1 else d1)].
Proof.
  unfold eliminate.
  match goal with
  | |- fold_left ?f [CRLF; LFCR] ?t = _ => change (fold_left f [CRLF; LFCR] t)
                                           with (f (f t CRLF) LFCR)
  end.
  cbv beta zeta.
  change (get 0 CRLF [(CRLF, a); (LFCR, b); (LF, c); (CR, d)]) with a.
  destruct (1 <? a); cbn [andb]; rewrite ?eliminate_inner;
    match goal with
    | |- context [get 0 LFCR ?t] => change (get 0 LFCR t) with b
    end;
    destruct (1 <? b); cbn [andb]; rewrite ?eliminate_inner; reflexivity.
Qed.

Lemma remaining_nil_counts (a b c d : nat) :
  remaining (eliminate [(CRLF, a); (LFCR, b); (LF, c); (CR, d)]) = [] ->
  c <= 1 /\ d <= 1.
Proof.
  rewrite eliminate_counts; cbv zeta.
  unfold remaining, candidates; cbn -[Nat.ltb Nat.eqb].
  destruct (1 <? a) eqn:Ha; [discriminate |].
  destruct (1 <? b) eqn:Hb; [discriminate |].
  cbn -[Nat.ltb Nat.eqb].
  destruct (1 <? c) eqn:Hc; [discriminate |].
  destruct (1 <? d) eqn:Hd; [discriminate |].
  intros _; apply Nat.ltb_ge in Hc, Hd; lia.
Qed.

(** X7: [getNewlineStr] finds no candidate with more than one line, and
    returns null at once, exactly when the sample has no line feed and no
    carriage return. *)
Theorem remaining_nil_iff (sample : string) :
  remaining (eliminate (countLines sample)) = [] <->
  JS.mem JS.LF sample = false /\ JS.mem JS.CR sample = false.
Proof.
  split.
  - intros H.
    unfold countLines, candidates in H; cbn [map] in H.
    apply remaining_nil_counts in H as [Hlf Hcr].
    split.
    + destruct (JS.mem JS.LF sample) eqn:E; [| reflexivity].
      destruct (terminated_present JS.LF sample E) as [n Hn].
      fold LF in Hn; rewrite Hn in Hlf; lia.
    + destruct (JS.mem JS.CR sample) eqn:E; [| reflexivity].
      destruct (terminated_present JS.CR sample E) as [n Hn].
      fold CR in Hn; rewrite Hn in Hcr; lia.
  - intros [Hlf Hcr]; rewrite (countLines_absent sample Hlf Hcr); reflexivity.
Qed.

Lemma remaining_nil_iff_witness :
  remaining (eliminate (countLines "a,b;c")) = [].
Proof. apply (proj2 (remaining_nil_iff "a,b;c")); split; reflexivity. Defined.

(** ** The pattern-based guesser *)

Lemma mem_tail c a s : JS.mem c s = true -> JS.mem c (String a s) = true.
Proof. intros H; simpl; rewrite H; apply orb_true_r. Qed.

Lemma mem_head c s : JS.mem c (String c s) = true.
Proof. simpl; rewrite Ascii.eqb_refl; reflexivity. Qed.

(** A character captured by a match was taken from the text by a group of
    the pattern, and is in the class of that group. *)
Lemma matchItems_captures (items : list Regex.item) :
  forall atStart s caps caps' rest n c,
    Regex.matchItems items atStart s caps = Some (caps', rest) ->
    Regex.capture n caps' = Some c ->
    Regex.capture n caps = Some c \/
    exists cls, In (Regex.Group n cls) items /\ cls c = true /\
                JS.mem c s = true.
Proof.
  induction items as [| it k IH]; intros atStart s caps caps' rest n c.
  - simpl; intros H; injection H as <- _; auto.
  - destruct it as [n0 cls | cls | n0 | |]; cbn [Regex.matchItems].
    + destruct s as [| c0 s']; [discriminate |].
      destruct (cls c0) eqn:Hc0; [| discriminate].
      intros H Hcap.
      destruct (IH _ _ _ _ _ _ _ H Hcap) as [Hold | (cls' & Hin & Hcls & Hmem)].
      * simpl in Hold. destruct (n =? n0) eqn:Hn.
        -- apply Nat.eqb_eq in Hn; subst n0. injection Hold as <-.
           right; exists cls; repeat split;
             [left; reflexivity | exact Hc0 | apply mem_head].
        -- left; exact Hold.
      * right; exists cls'; repeat split;
          [right; exact Hin | exact Hcls | apply mem_tail, Hmem].
    + revert atStart; induction s as [| c0 s' IHs]; intros atStart.
      * destruct (Regex.matchItems k atStart EmptyString caps) eqn:E;
          [| discriminate].
        intros H Hcap; injection H as ->.
        destruct (IH _ _ _ _ _ _ _ E Hcap) as [Hold | (cls' & Hin & Hrest)];
          [left; exact Hold | right; exists cls'; split;
                              [right; exact Hin | exact Hrest]].
      * destruct (Regex.matchItems k atStart (String c0 s') caps) eqn:E.
        -- intros H Hcap; injection H as ->.
           destruct (IH _ _ _ _ _ _ _ E Hcap) as [Hold | (cls' & Hin & Hrest)];
             [left; exact Hold | right; exists cls'; split;
                                 [right; exact Hin | exact Hrest]].
        -- destruct (cls c0); [| discriminate].
           intros H Hcap.
           destruct (IHs _ H Hcap) as [Hold | (cls' & Hin & Hcls & Hmem)];
             [left; exact Hold |].
           right; exists cls'; repeat split;
             [exact Hin | exact Hcls | apply mem_tail, Hmem].
    + destruct (Regex.capture n0 caps) as [c1 |].
      * destruct s as [| c0 s']; [discriminate |].
        destruct (Ascii.eqb c0 c1); [| discriminate].
        intros H Hcap.
        destruct (IH _ _ _ _ _ _ _ H Hcap) as [Hold | (cls' & Hin & Hcls & Hmem)];
          [left; exact Hold |].
        right; exists cls'; repeat split;
          [right; exact Hin | exact Hcls | apply mem_tail, Hmem].
      * intros H Hcap.
        destruct (IH _ _ _ _ _ _ _ H Hcap) as [Hold | (cls' & Hin & Hrest)];
          [left; exact Hold | right; exists cls'; split;
                              [right; exact Hin | exact Hrest]].
    + destruct atStart; [| discriminate].
      intros H Hcap.
      destruct (IH _ _ _ _ _ _ _ H Hcap) as [Hold | (cls' & Hin & Hrest)];
        [left; exact Hold | right; exists cls'; split;
                            [right; exact Hin | exact Hrest]].
    + destruct (JS.isEmpty s); [| discriminate].
      intros H Hcap.
      destruct (IH _ _ _ _ _ _ _ H Hcap) as [Hold | (cls' & Hin & Hrest)];
        [left; exact Hold | right; exists cls'; split;
                            [right; exact Hin | exact Hrest]].
Qed.

Lemma execAll_captures (items : list Regex.item) (s : string) :
  forall atStart skip caps n c,
    In caps (Regex.execAll items atStart s skip) ->
    Regex.capture n caps = Some c ->
    exists cls, In (Regex.Group n cls) items /\ cls c = true /\
                JS.mem c s = true.
Proof.
  induction s as [| a s IH]; intros atStart skip caps n c.
  - destruct skip; cbn [Regex.execAll]; [| intros []].
    destruct (Regex.matchItems items atStart EmptyString []) as [[caps0 rest] |] eqn:E;
      [| intros []].
    intros [<- | []] Hcap.
    destruct (matchItems_captures _ _ _ _ _ _ _ _ E Hcap) as [Hold | H];
      [discriminate | exact H].
  - assert (Hlater : forall b k,
               In caps (Regex.execAll items b s k) ->
               Regex.capture n caps = Some c ->
               exists cls, In (Regex.Group n cls) items /\ cls c = true /\
                           JS.mem c (String a s) = true).
    { intros b k Hin Hcap.
      destruct (IH b k caps n c Hin Hcap) as (cls & H1 & H2 & H3).
      exists cls; repeat split; [exact H1 | exact H2 | apply mem_tail, H3]. }
    destruct skip; cbn [Regex.execAll]; [| apply Hlater].
    destruct (Regex.matchItems items atStart (String a s) []) as [[caps0 rest] |] eqn:E;
      [| apply Hlater].
    intros [<- | Hin] Hcap; [| exact (Hlater _ _ Hin Hcap)].
    destruct (matchItems_captures _ _ _ _ _ _ _ _ E Hcap) as [Hold | H];
      [discriminate | exact H].
Qed.

Lemma firstMatches_In (ds : list expr) (sample : string) (m : found) :
  In m (firstMatches ds sample) ->
  exists d, In d ds /\ In m (matchesOf d sample).
Proof.
  induction ds as [| d ds IH]; simpl; [intros [] |].
  destruct (matchesOf d sample) as [| m0 ms] eqn:E.
  - intros H; destruct (IH H) as (d' & Hd & Hm).
    exists d'; split; [right; exact Hd | exact Hm].
  - intros H; exists d; split; [left; reflexivity | rewrite E; exact H].
Qed.

(** What the matches of the four expressions carry. *)
Lemma firstMatches_shape (newlineStr sample : string) (m : found) :
  In m (firstMatches (exprs newlineStr) sample) ->
  (forall q, quote m = Some q ->
             exists c, q = JS.str1 c /\ isQuote c = true /\
                       JS.mem c sample = true) /\
  (forall d, delim m = Some d ->
             exists c, d = JS.str1 c /\ delimiterClass newlineStr c = true /\
                       JS.mem c sample = true).
Proof.
  intros H; apply firstMatches_In in H as (d & Hd & Hm).
  unfold matchesOf in Hm; apply in_map_iff in Hm as (caps & <- & Hcaps).
  cbn [quote delim].
  assert (Hcap : forall n c,
             Regex.capture n caps = Some c ->
             exists cls, In (Regex.Group n cls) (items d) /\ cls c = true /\
                         JS.mem c sample = true)
    by (intros n c; apply (execAll_captures _ _ _ _ _ _ _ Hcaps)).
  destruct Hd as [<- | [<- | [<- | [<- | []]]]];
    cbn [quoteRef delimRef items ref] in *; split; intros x Hx;
    try discriminate;
    match type of Hx with
    | option_map _ (Regex.capture ?n caps) = Some _ =>
        destruct (Regex.capture n caps) as [c |] eqn:Hc; [| discriminate];
        injection Hx as <-;
        destruct (Hcap _ _ Hc) as (cls & Hin & Hcls & Hmem);
        exists c; split; [reflexivity |]; split; [| exact Hmem];
        repeat (destruct Hin as [Hin | Hin];
                [first [discriminate Hin
                       | injection Hin as <-; exact Hcls] |]);
        destruct Hin
    end.
Qed.

Lemma tallyQuotes_origin (matches : list found) (x : string) :
  In x (map fst (tallyQuotes matches)) ->
  exists m, In m matches /\ quote m = Some x.
Proof.
  unfold tallyQuotes.
  assert (G : forall o,
             In x (map fst
                     (fold_left
                        (fun o d =>
                           match quote d with
                           | Some x => bump x o
                           | None => o
                           end) matches o)) ->
             In x (map fst o) \/ exists m, In m matches /\ quote m = Some x).
  { induction matches as [| m matches IH]; intros o; simpl; [auto |].
    intros H; apply IH in H as [H | (m' & Hm & Hq)].
    - destruct (quote m) as [y |] eqn:Hy; [| left; exact H].
      apply bump_keys in H as [-> | H]; [| left; exact H].
      right; exists m; split; [left; reflexivity | exact Hy].
    - right; exists m'; split; [right; exact Hm | exact Hq]. }
  intros H; apply G in H as [[] | H]; exact H.
Qed.

Lemma tallyDelims_origin delimiters (matches : list found) (x : string) :
  In x (map fst (tallyDelims delimiters matches)) ->
  exists m, In m matches /\ delim m = Some x.
Proof.
  unfold tallyDelims.
  assert (G : forall o,
             In x (map fst
                     (fold_left
                        (fun o d =>
                           match delim d with
                           | Some x => if allowed delimiters x then bump x o else o
                           | None => o
                           end) matches o)) ->
             In x (map fst o) \/ exists m, In m matches /\ delim m = Some x).
  { induction matches as [| m matches IH]; intros o; simpl; [auto |].
    intros H; apply IH in H as [H | (m' & Hm & Hq)].
    - destruct (delim m) as [y |] eqn:Hy; [| left; exact H].
      destruct (allowed delimiters y); [| left; exact H].
      apply bump_keys in H as [-> | H]; [| left; exact H].
      right; exists m; split; [left; reflexivity | exact Hy].
    - right; exists m'; split; [right; exact Hm | exact Hq]. }
  intros H; apply G in H as [[] | H]; exact H.
Qed.

(** X8: for a plain newline string, the quote that the pattern-based
    guesser returns is the apostrophe or the double quote, and the delimiter
    it returns is a single character that occurs in the sample, is no
    character of the newline string, is no quote, and is not the line
    feed. *)
Theorem guessQuoteAndDelimiter_shape (sample newlineStr : string)
  (delimiters : option (list string)) :
  plainNewline newlineStr = true ->
  (forall q, quote (guessQuoteAndDelimiter sample newlineStr delimiters) = Some q ->
             q = JS.str1 JS.SQUOTE \/ q = JS.str1 JS.DQUOTE) /\
  (forall d, delim (guessQuoteAndDelimiter sample newlineStr delimiters) = Some d ->
             d <> LF /\
             exists c, d = JS.str1 c /\ JS.mem c sample = true /\
                       JS.mem c newlineStr = false /\ isQuote c = false).
Proof.
  intros _; unfold guessQuoteAndDelimiter, electQuoteAndDelimiter.
  destruct (firstMatches (exprs newlineStr) sample) as [| m0 ms] eqn:E;
    [split; intros x Hx; discriminate |].
  rewrite <- E; cbn [quote delim]; split.
  - intros q Hq.
    apply mostCounted_In, keys_In, tallyQuotes_origin in Hq as (m & Hm & Hq).
    destruct (firstMatches_shape _ _ _ Hm) as [Hquote _].
    destruct (Hquote q Hq) as (c & -> & Hc & _).
    unfold isQuote in Hc; apply orb_prop in Hc as [Hc | Hc];
      apply Ascii.eqb_eq in Hc; subst c; auto.
  - intros d Hd.
    destruct (mostCounted (tallyDelims delimiters _)) as [x |] eqn:Hx;
      [| discriminate].
    destruct (String.eqb x LF) eqn:Hlf; [discriminate |].
    injection Hd as <-.
    split; [apply String.eqb_neq, Hlf |].
    apply mostCounted_In, keys_In, tallyDelims_origin in Hx as (m & Hm & Hx).
    destruct (firstMatches_shape _ _ _ Hm) as [_ Hdelim].
    destruct (Hdelim x Hx) as (c & -> & Hc & Hmem).
    exists c; split; [reflexivity |]; split; [exact Hmem |].
    unfold delimiterClass in Hc; apply negb_true_iff in Hc.
    apply orb_false_elim in Hc; exact Hc.
Qed.

Lemma guessQuoteAndDelimiter_shape_witness :
  "," <> LF /\
  exists c, "," = JS.str1 c /\ JS.mem c sampleQuoted = true /\
            JS.mem c LF = false /\ isQuote c = false.
Proof.
  apply (proj2 (guessQuoteAndDelimiter_shape sampleQuoted LF None eq_refl)).
  vm_compute; reflexivity.
Defined.

(** A match takes, for each group of the pattern, a character of the text
    that is in the class of the group. *)
Lemma matchItems_group (items : list Regex.item) n cls :
  In (Regex.Group n cls) items ->
  forall atStart s caps r,
    Regex.matchItems items atStart s caps = Some r ->
    exists c, JS.mem c s = true /\ cls c = true.
Proof.
  induction items as [| it k IH]; intros Hin atStart s caps r; [destruct Hin |].
  destruct it as [n0 cls0 | cls0 | n0 | |]; cbn [Regex.matchItems].
  - destruct s as [| c0 s']; [discriminate |].
    destruct (cls0 c0) eqn:Hc0; [| discriminate].
    destruct Hin as [Hin | Hin].
    + injection Hin as -> ->; intros _.
      exists c0; split; [apply mem_head | exact Hc0].
    + intros H; destruct (IH Hin _ _ _ _ H) as (c & Hm & Hc).
      exists c; split; [apply mem_tail, Hm | exact Hc].
  - destruct Hin as [Hin | Hin]; [discriminate |].
    revert atStart; induction s as [| c0 s' IHs]; intros atStart.
    + destruct (Regex.matchItems k atStart EmptyString caps) eqn:E;
        [| discriminate].
      intros _; exact (IH Hin _ _ _ _ E).
    + destruct (Regex.matchItems k atStart (String c0 s') caps) eqn:E.
      * intros _; exact (IH Hin _ _ _ _ E).
      * destruct (cls0 c0); [| discriminate].
        intros H; destruct (IHs _ H) as (c & Hm & Hc).
        exists c; split; [apply mem_tail, Hm | exact Hc].
  - destruct Hin as [Hin | Hin]; [discriminate |].
    destruct (Regex.capture n0 caps) as [c1 |].
    + destruct s as [| c0 s']; [discriminate |].
      destruct (Ascii.eqb c0 c1); [| discriminate].
      intros H; destruct (IH Hin _ _ _ _ H) as (c & Hm & Hc).
      exists c; split; [apply mem_tail, Hm | exact Hc].
    + apply (IH Hin).
  - destruct Hin as [Hin | Hin]; [discriminate |].
    destruct atStart; [apply (IH Hin) | discriminate].
  - destruct Hin as [Hin | Hin]; [discriminate |].
    destruct (JS.isEmpty s); [apply (IH Hin) | discriminate].
Qed.

Lemma execAll_nil (items : list Regex.item) n cls (s : string) :
  In (Regex.Group n cls) items ->
  (forall c, JS.mem c s = true -> cls c = false) ->
  forall atStart skip, Regex.execAll items atStart s skip = [].
Proof.
  intros Hin; induction s as [| a s IH]; intros Hs atStart skip.
  - destruct skip; cbn [Regex.execAll]; [| reflexivity].
    destruct (Regex.matchItems items atStart EmptyString []) eqn:E;
      [| reflexivity].
    destruct (matchItems_group _ _ _ Hin _ _ _ _ E) as (c & Hm & _);
      discriminate.
  - assert (Hs' : forall c, JS.mem c s = true -> cls c = false)
      by (intros c Hc; apply Hs, mem_tail, Hc).
    destruct skip; cbn [Regex.execAll]; [| apply IH, Hs'].
    destruct (Regex.matchItems items atStart (String a s) []) as [[caps rest] |] eqn:E;
      [| apply IH, Hs'].
    destruct (matchItems_group _ _ _ Hin _ _ _ _ E) as (c & Hm & Hc).
    rewrite (Hs c Hm) in Hc; discriminate.
Qed.

Lemma firstMatches_unquoted (newlineStr sample : string) :
  JS.mem JS.SQUOTE sample = false ->
  JS.mem JS.DQUOTE sample = false ->
  firstMatches (exprs newlineStr) sample = [].
Proof.
  intros Hs Hd.
  assert (Hq : forall c, JS.mem c sample = true -> isQuote c = false).
  { intros c Hc; unfold isQuote.
    destruct (Ascii.eqb_spec c JS.DQUOTE) as [-> | _];
      [rewrite Hd in Hc; discriminate |].
    destruct (Ascii.eqb_spec c JS.SQUOTE) as [-> | _];
      [rewrite Hs in Hc; discriminate | reflexivity]. }
  unfold exprs; cbn [firstMatches]; unfold matchesOf; cbn [items].
  rewrite (execAll_nil _ 2 isQuote sample) by (simpl; auto 10); cbn [map].
  rewrite (execAll_nil _ 1 isQuote sample) by (simpl; auto 10); cbn [map].
  rewrite (execAll_nil _ 2 isQuote sample) by (simpl; auto 10); cbn [map].
  rewrite (execAll_nil _ 1 isQuote sample) by (simpl; auto 10); reflexivity.
Qed.

(** X9: on a sample that holds neither an apostrophe nor a double quote,
    the pattern-based guesser finds nothing: it returns null for the
    delimiter and for the quote. A result of [sniff] for such a sample, when
    the options give no quote character, has the quote character null and
    no warning. *)
Theorem unquoted_sample (sample : string) :
  JS.mem JS.SQUOTE sample = false ->
  JS.mem JS.DQUOTE sample = false ->
  (forall newlineStr delimiters,
      plainNewline newlineStr = true ->
      guessQuoteAndDelimiter sample newlineStr delimiters
      = {| delim := None; quote := None |}) /\
  (forall this options r,
      match options with
      | Some o => Options.quoteChar o = Undefined
      | None => True
      end ->
      sniff this sample options = Returns r ->
      plainNewline (Result.newlineStr r) = true ->
      Result.quoteChar r = Null /\ Result.warnings r = []).
Proof.
  intros Hs Hd.
  assert (Hnone : forall newlineStr delimiters,
             guessQuoteAndDelimiter sample newlineStr delimiters
             = {| delim := None; quote := None |}).
  { intros newlineStr delimiters; unfold guessQuoteAndDelimiter.
    rewrite (firstMatches_unquoted newlineStr sample Hs Hd); reflexivity. }
  split; [intros newlineStr delimiters _; apply Hnone |].
  intros this options r Hopt; unfold sniff.
  set (o := match options with Some o => o | None => Options.empty end).
  assert (Hq : Options.quoteChar o = Undefined)
    by (subst o; destruct options; [exact Hopt | reflexivity]).
  destruct (resolveNewline sample o) as [newlineStr |]; [| discriminate].
  intros H _; injection H as <-.
  unfold patternGuess; rewrite Hq, Hnone; split; reflexivity.
Qed.

Lemma unquoted_sample_witness :
  guessQuoteAndDelimiter sampleABC LF None = {| delim := None; quote := None |} /\
  exists r, sniff None sampleABC None = Returns r /\
            Result.quoteChar r = Null /\ Result.warnings r = [].
Proof.
  destruct (unquoted_sample sampleABC eq_refl eq_refl) as [H1 H2].
  split; [apply H1; reflexivity |].
  eexists; split; [vm_compute; reflexivity |].
  apply (H2 None None); [exact I | vm_compute; reflexivity | reflexivity].
Defined.

(** ** The vote of the pattern-based guesser *)

Lemma get_bump x k (o : table nat) :
  get 0 x (bump k o) = get 0 x o + (if String.eqb k x then 1 else 0).
Proof.
  induction o as [| (k', n) o IH]; simpl.
  - rewrite (String.eqb_sym x k); destruct (String.eqb k x); reflexivity.
  - destruct (String.eqb k k') eqn:Hk; simpl.
    + apply String.eqb_eq in Hk; subst k'.
      rewrite (String.eqb_sym x k); destruct (String.eqb k x); lia.
    + destruct (String.eqb x k') eqn:Hx; [| exact IH].
      apply String.eqb_eq in Hx; subst k'.
      rewrite Hk; lia.
Qed.

Lemma tallyQuotes_votes (matches : list found) (x : string) :
  get 0 x (tallyQuotes matches) = quoteVotes x matches.
Proof.
  unfold tallyQuotes, quoteVotes.
  assert (G : forall o,
             get 0 x (fold_left
                        (fun o d =>
                           match quote d with
                           | Some x => bump x o
                           | None => o
                           end) matches o)
             = get 0 x o
               + List.length (filter (fun m => sameAs x (quote m)) matches)).
  { induction matches as [| m matches IH]; intros o; simpl; [lia |].
    rewrite IH; destruct (quote m) as [y |]; simpl; [| lia].
    rewrite get_bump; destruct (String.eqb y x); simpl; lia. }
  rewrite G; reflexivity.
Qed.

Lemma tallyDelims_votes delimiters (matches : list found) (x : string) :
  allowed delimiters x = true ->
  get 0 x (tallyDelims delimiters matches) = delimVotes x matches.
Proof.
  intros Hx; unfold tallyDelims, delimVotes.
  assert (G : forall o,
             get 0 x (fold_left
                        (fun o d =>
                           match delim d with
                           | Some x => if allowed delimiters x then bump x o else o
                           | None => o
                           end) matches o)
             = get 0 x o
               + List.length (filter (fun m => sameAs x (delim m)) matches)).
  { induction matches as [| m matches IH]; intros o; simpl; [lia |].
    rewrite IH; destruct (delim m) as [y |]; simpl; [| lia].
    destruct (String.eqb y x) eqn:Hy.
    - apply String.eqb_eq in Hy; subst y; rewrite Hx, get_bump.
      rewrite String.eqb_refl; simpl; lia.
    - destruct (allowed delimiters y); [| lia].
      rewrite get_bump, Hy; lia. }
  rewrite G; reflexivity.
Qed.

Lemma get_absent (x : string) (o : table nat) :
  ~ In x (map fst o) -> get 0 x o = 0.
Proof.
  induction o as [| (k, n) o IH]; simpl; [reflexivity |].
  intros H; destruct (String.eqb_spec x k) as [-> | _].
  - exfalso; apply H; left; reflexivity.
  - apply IH; intros Hin; apply H; right; exact Hin.
Qed.

Lemma insertIndex_has v k l y :
  y = k \/ In y (map snd l) -> In y (map snd (insertIndex v k l)).
Proof.
  induction l as [| (v', k') l IH]; simpl.
  - intros [-> | []]; left; reflexivity.
  - destruct (v <? v')%Z; simpl.
    + intros [-> | H]; [left; reflexivity | right; exact H].
    + intros [-> | [<- | H]];
        [right; apply IH; left; reflexivity | left; reflexivity
        | right; apply IH; right; exact H].
Qed.

Lemma keys_complete {A : Type} (o : table A) (x : string) :
  In x (map fst o) -> In x (keys o).
Proof.
  intros H; unfold keys; apply in_or_app.
  destruct (arrayIndex x) as [v |] eqn:Hx.
  - left.
    assert (G : forall (acc : list (Z * string)),
               In x (map snd acc) \/ In x (map fst o) ->
               In x (map snd
                       (fold_left
                          (fun acc '(k, _) =>
                             match arrayIndex k with
                             | Some v => insertIndex v k acc
                             | None => acc
                             end) o acc))).
    { clear H; induction o as [| (k, a) o IH]; intros acc; simpl;
        [intros [H | []]; exact H |].
      intros [H | [<- | H]]; apply IH.
      - left; destruct (arrayIndex k); [apply insertIndex_has; right |]; exact H.
      - left; rewrite Hx; apply insertIndex_has; left; reflexivity.
      - right; exact H. }
    apply G; right; exact H.
  - right. apply in_map_iff in H as ((k, a) & Hk & Hin); simpl in Hk; subst k.
    apply in_map_iff; exists (x, a); split; [reflexivity |].
    apply filter_In; split; [exact Hin | rewrite Hx; reflexivity].
Qed.

Lemma mostCounted_max (o : table nat) (d : string) :
  mostCounted o = Some d -> forall x, get 0 x o <= get 0 d o.
Proof.
  unfold mostCounted.
  assert (G : forall ks best maxCount,
             let r := fold_left
                        (fun '(best, maxCount) d =>
                           let n := Z.of_nat (get 0 d o) in
                           if (maxCount <? n)%Z then (Some d, n)
                           else (best, maxCount))
                        ks (best, maxCount) in
             (maxCount <= snd r)%Z /\
             (forall k, In k ks -> (Z.of_nat (get 0%nat k o) <= snd r)%Z) /\
             (forall d, fst r = Some d ->
                        (best = Some d /\ snd r = maxCount) \/
                        snd r = Z.of_nat (get 0 d o))).
  { induction ks as [| k ks IH]; intros best maxCount; cbv zeta; simpl.
    - repeat split; [lia | intros k [] | intros d' H; left; auto].
    - destruct (Z.ltb_spec maxCount (Z.of_nat (get 0 k o))) as [Hlt | Hge].
      + destruct (IH (Some k) (Z.of_nat (get 0 k o))) as (H1 & H2 & H3).
        cbv zeta in *; repeat split.
        * lia.
        * intros k' [<- | Hk']; [exact H1 | apply H2, Hk'].
        * intros d' Hd'; right.
          destruct (H3 d' Hd') as [[E1 E2] | E]; [| exact E].
          injection E1 as <-; exact E2.
      + destruct (IH best maxCount) as (H1 & H2 & H3).
        cbv zeta in *; repeat split.
        * exact H1.
        * intros k' [<- | Hk']; [lia | apply H2, Hk'].
        * exact H3. }
  intros H x.
  destruct (G (keys o) None (-1)%Z) as (_ & H2 & H3); cbv zeta in *.
  destruct (H3 d H) as [[E _] | E]; [discriminate |].
  destruct (in_dec string_dec x (map fst o)) as [Hin | Hout].
  - apply keys_complete, H2 in Hin; lia.
  - rewrite (get_absent x o Hout); lia.
Qed.

(** X10: the quote that the vote of the pattern-based guesser elects is
    carried by as many matches as any other quote at least, and the
    delimiter it elects by as many matches as any other allowed delimiter
    at least. *)
Theorem electQuoteAndDelimiter_most (delimiters : option (list string))
  (matches : list found) :
  (forall q, quote (electQuoteAndDelimiter delimiters matches) = Some q ->
             forall x, quoteVotes x matches <= quoteVotes q matches) /\
  (forall d, delim (electQuoteAndDelimiter delimiters matches) = Some d ->
             forall x, allowed delimiters x = true ->
                       delimVotes x matches <= delimVotes d matches).
Proof.
  unfold electQuoteAndDelimiter.
  destruct matches as [| m0 ms]; [split; intros x Hx; discriminate |].
  set (matches := m0 :: ms); cbn [quote delim]; split.
  - intros q Hq x.
    rewrite <- !tallyQuotes_votes; apply mostCounted_max, Hq.
  - intros d Hd x Hx.
    destruct (mostCounted (tallyDelims delimiters matches)) as [y |] eqn:Hy;
      [| discriminate].
    destruct (String.eqb y LF); [discriminate |].
    injection Hd as <-.
    rewrite <- (tallyDelims_votes delimiters matches x Hx).
    rewrite <- (tallyDelims_votes delimiters matches y).
    + apply mostCounted_max, Hy.
    + apply (tallyDelims_allowed delimiters matches).
      apply keys_In, mostCounted_In, Hy.
Qed.

Lemma electQuoteAndDelimiter_most_witness :
  delimVotes ";" (firstMatches (exprs LF) sampleQuoted)
  <= delimVotes "," (firstMatches (exprs LF) sampleQuoted).
Proof.
  apply (proj2 (electQuoteAndDelimiter_most None
                  (firstMatches (exprs LF) sampleQuoted)) "," );
    vm_compute; reflexivity.
Defined.

(** ** The frequency-based guesser *)

Lemma increment_length i : forall ascii,
  List.length (increment i ascii) = List.length ascii.
Proof.
  induction i as [| i IH]; intros [| n ascii]; simpl; auto.
Qed.

Lemma increment_nth i : forall j ascii,
  nth j (increment i ascii) 0
  = nth j ascii 0 + (if (i =? j) && (i <? List.length ascii) then 1 else 0).
Proof.
  induction i as [| i IH]; intros j [| n ascii]; simpl.
  - destruct j; reflexivity.
  - destruct j; simpl; lia.
  - destruct j; simpl; rewrite ?andb_false_r; reflexivity.
  - destruct j as [| j]; simpl; [lia |].
    rewrite IH. reflexivity.
Qed.

Lemma code_chr_eqb (a : ascii) (i : nat) :
  i < 256 -> (JS.code a =? i) = Ascii.eqb a (JS.chr i).
Proof.
  intros Hi; unfold JS.code, JS.chr.
  destruct (Ascii.eqb_spec a (ascii_of_nat i)) as [-> | Hne].
  - rewrite (nat_ascii_embedding i Hi); apply Nat.eqb_refl.
  - apply Nat.eqb_neq; intros E; apply Hne.
    rewrite <- E; symmetry; apply ascii_nat_embedding.
Qed.

(** The table of a line holds, at each index below 127, the number of
    occurrences in the line of the character of that code. *)
Lemma asciiTable_nth (line : string) (i : nat) :
  i < asciiMax ->
  nth i (asciiTable line) 0 = occurrences (JS.chr i) line.
Proof.
  intros Hi; unfold asciiTable.
  assert (G : forall ascii,
             List.length ascii = asciiMax ->
             nth i (fold_left (fun ascii c => increment (JS.code c) ascii)
                              (list_ascii_of_string line) ascii) 0
             = nth i ascii 0 + occurrences (JS.chr i) line).
  { induction line as [| a line IH]; intros ascii Hlen; simpl; [lia |].
    rewrite IH by (rewrite increment_length; exact Hlen).
    rewrite increment_nth, Hlen.
    rewrite <- (code_chr_eqb a i) by (unfold asciiMax in Hi; lia).
    destruct (JS.code a =? i) eqn:E; simpl; [| lia].
    apply Nat.eqb_eq in E; rewrite E.
    replace (i <? asciiMax) with true by (symmetry; apply Nat.ltb_lt, Hi).
    lia. }
  rewrite G by apply repeat_length.
  rewrite nth_repeat; reflexivity.
Qed.

Lemma record_metaAt freq f : forall t,
  metaAt freq (record f t) = metaAt freq t + (if f =? freq then 1 else 0).
Proof.
  induction t as [| (f', m) t IH]; simpl.
  - lia.
  - destruct (f =? f') eqn:E1; simpl.
    + apply Nat.eqb_eq in E1; subst f'.
      destruct (f =? freq); lia.
    + destruct (f <? f'); simpl; [lia |].
      rewrite IH; lia.
Qed.

Lemma metaSum_shift (t : list (nat * nat)) : forall a,
  fold_left (fun sum '(_, d) => sum + d) t a = a + metaSum t.
Proof.
  unfold metaSum; induction t as [| (f, m) t IH]; intros a; simpl; [lia |].
  rewrite IH, (IH m); lia.
Qed.

Lemma metaSum_cons f m t : metaSum ((f, m) :: t) = m + metaSum t.
Proof. unfold metaSum; simpl; rewrite metaSum_shift; reflexivity. Qed.

Lemma record_metaSum f : forall t, metaSum (record f t) = S (metaSum t).
Proof.
  induction t as [| (f', m) t IH]; [reflexivity |]; simpl.
  destruct (f =? f'); [rewrite !metaSum_cons; lia |].
  destruct (f <? f'); rewrite !metaSum_cons; [reflexivity |].
  rewrite IH; lia.
Qed.

Lemma metaAt_In f m : forall t, In (f, m) t -> m <= metaAt f t.
Proof.
  induction t as [| (f', m') t IH]; simpl; [intros [] |].
  intros [E | H].
  - injection E as -> ->; rewrite Nat.eqb_refl; lia.
  - specialize (IH H); lia.
Qed.

(** The frequency table of a character: at [freq], the number of lines on
    which the character occurs [freq] times; in all, the number of
    lines. *)
Lemma freqTable_counts (i : nat) (tables : list (list nat)) :
  (forall freq,
      metaAt freq (freqTable i tables)
      = List.length (filter (fun d => nth i d 0 =? freq) tables)) /\
  metaSum (freqTable i tables) = List.length tables.
Proof.
  unfold freqTable.
  assert (G : forall t,
             (forall freq,
                 metaAt freq (fold_left (fun t d => record (nth i d 0) t) tables t)
                 = metaAt freq t
                   + List.length (filter (fun d => nth i d 0 =? freq) tables)) /\
             metaSum (fold_left (fun t d => record (nth i d 0) t) tables t)
             = metaSum t + List.length tables).
  { induction tables as [| d tables IH]; intros t; simpl; [split; intros; lia |].
    destruct (IH (record (nth i d 0) t)) as [H1 H2]; split.
    - intros freq; rewrite H1, record_metaAt.
      destruct (nth i d 0 =? freq); simpl; lia.
    - rewrite H2, record_metaSum; lia. }
  destruct (G []) as [H1 H2]; split; [intros freq; rewrite H1 | rewrite H2];
    reflexivity.
Qed.

Lemma maxMeta_In (t : list (nat * nat)) f m :
  maxMeta t = Some (f, m) -> In (f, m) t.
Proof.
  unfold maxMeta.
  assert (G : forall max,
             fold_left (fun max '(freq, metaFreq) =>
                          match max with
                          | None => Some (freq, metaFreq)
                          | Some (_, m) =>
                              if m <? metaFreq then Some (freq, metaFreq) else max
                          end) t max = Some (f, m) ->
             max = Some (f, m) \/ In (f, m) t).
  { induction t as [| (f', m') t IH]; intros max; simpl; [auto |].
    intros H; apply IH in H as [H | H]; [| right; right; exact H].
    destruct max as [(f0, m0) |].
    - destruct (m0 <? m'); [injection H as <- <-; right; left; reflexivity
                           | left; exact H].
    - injection H as <- <-; right; left; reflexivity. }
  intros H; apply G in H as [H | H]; [discriminate | exact H].
Qed.

Lemma modeOf_entry (t : list (nat * nat)) (e : modeEntry) :
  modeOf t = Some e ->
  exists m, In (maxFreq e, m) t /\
            mode e = (Z.of_nat m - (Z.of_nat (metaSum t) - Z.of_nat m))%Z.
Proof.
  unfold modeOf.
  assert (G : match maxMeta t with
              | Some (freq, metaFreq) =>
                  Some {| maxFreq := freq;
                          mode := (Z.of_nat metaFreq
                                   - (Z.of_nat (metaSum t) - Z.of_nat metaFreq))%Z |}
              | None => None
              end = Some e ->
              exists m, In (maxFreq e, m) t /\
                        mode e = (Z.of_nat m - (Z.of_nat (metaSum t) - Z.of_nat m))%Z).
  { destruct (maxMeta t) as [(f, m) |] eqn:E; [| discriminate].
    intros H; injection H as <-; simpl.
    exists m; split; [apply maxMeta_In, E | reflexivity]. }
  destruct t as [| (f0, m0) [| p t']]; [exact G | |];
    destruct f0; first [discriminate | exact G].
Qed.

Lemma modes_In (tables : list (list nat)) i e :
  In (i, e) (modes tables) ->
  i < asciiMax /\ modeOf (freqTable i tables) = Some e.
Proof.
  unfold modes; intros H; apply in_flat_map in H as (j & Hj & H).
  apply in_seq in Hj.
  destruct (modeOf (freqTable j tables)) as [e' |] eqn:E; [| destruct H].
  destruct H as [H | []]; injection H as <- <-.
  split; [lia | exact E].
Qed.

Lemma round_In delimiters ms nrLines consistency d :
  In d (round delimiters ms nrLines consistency) ->
  exists i e, In (i, e) ms /\ d = JS.str1 (JS.chr i) /\
              maxFreq e <> 0 /\ (0 < mode e)%Z.
Proof.
  unfold round; intros H.
  apply in_flat_map in H as ((i & e) & Hin & H).
  destruct (maxFreq e =? 0) eqn:Hf; [destruct H |].
  destruct (mode e <=? 0)%Z eqn:Hm; [destruct H |].
  simpl in H.
  destruct (_ && _); [| destruct H].
  destruct H as [<- | []].
  exists i, e; repeat split;
    [exact Hin | apply Nat.eqb_neq, Hf | apply Z.leb_gt, Hm].
Qed.

Lemma search_In delimiters ms nrLines cs d :
  In d (search delimiters ms nrLines cs) ->
  exists consistency, In d (round delimiters ms nrLines consistency).
Proof.
  induction cs as [| c cs IH]; simpl; [intros [] |].
  destruct (round delimiters ms nrLines c) eqn:Hr; [exact IH |].
  intros H; exists c; rewrite Hr; exact H.
Qed.

(** The characters of a piece of a split are characters of the string. *)
Lemma splitOn_mem (sep : string) (c : ascii) (s : string) :
  forall skip cur line,
    In line (fst (JS.splitOn sep s skip cur)) ->
    JS.mem c line = true ->
    JS.mem c cur = true \/ JS.mem c s = true.
Proof.
  induction s as [| a s IH]; intros skip cur line.
  - destruct skip; simpl; intros [].
  - destruct skip as [| k]; cbn [JS.splitOn].
    + destruct (String.prefix sep (String a s)).
      * destruct (JS.splitOn sep s (String.length sep - 1) EmptyString)
          as [ls tl] eqn:E; cbn [fst].
        intros [<- | Hin] Hc; [left; exact Hc |].
        specialize (IH (String.length sep - 1) EmptyString line).
        rewrite E in IH; destruct (IH Hin Hc) as [H | H];
          [discriminate | right; apply mem_tail, H].
      * intros Hin Hc.
        destruct (IH 0 _ line Hin Hc) as [H | H];
          [| right; apply mem_tail, H].
        clear - H. induction cur as [| b cur IHc]; simpl in *.
        -- rewrite orb_false_r in H; right; rewrite H; reflexivity.
        -- apply orb_prop in H as [H | H]; [left; rewrite H; reflexivity |].
           destruct (IHc H) as [H' | H']; [left; rewrite H'; apply orb_true_r
                                          | right; exact H'].
    + intros Hin Hc.
      destruct (IH k cur line Hin Hc) as [H | H];
        [left; exact H | right; apply mem_tail, H].
Qed.

Lemma occurrences_mem c line :
  occurrences c line <> 0 -> JS.mem c line = true.
Proof.
  induction line as [| a line IH]; simpl; [intros H; contradiction |].
  rewrite (Ascii.eqb_sym c a).
  destruct (Ascii.eqb a c); simpl; [reflexivity | exact IH].
Qed.

Lemma asciiTables_filter (i k : nat) (lines : list string) :
  i < asciiMax ->
  List.length (filter (fun d => nth i d 0 =? k) (map asciiTable lines))
  = List.length (filter (fun line => occurrences (JS.chr i) line =? k) lines).
Proof.
  intros Hi; induction lines as [| line lines IH]; simpl; [reflexivity |].
  rewrite (asciiTable_nth line i Hi).
  destruct (occurrences (JS.chr i) line =? k); simpl; rewrite IH; reflexivity.
Qed.

(** X11: the delimiter that the frequency-based guesser returns is a single
    character of code below 127 that occurs in the sample, and there is a
    number k of at least 1 such that the character occurs exactly k times
    on more than half of the lines that the newline string ends. *)
Theorem guessDelimiter_majority (sample newlineStr : string)
  (delimiters : option (list string)) (d : string) :
  JS.truthy newlineStr = true ->
  guessDelimiter sample newlineStr delimiters = Some d ->
  exists c k,
    d = JS.str1 c /\ JS.code c < 127 /\ JS.mem c sample = true /\ 1 <= k /\
    List.length (JS.terminated newlineStr sample)
    < 2 * List.length (filter (fun line => occurrences c line =? k)
                              (JS.terminated newlineStr sample)).
Proof.
  intros _ H.
  assert (Hin : In d (search delimiters (modes (asciiTables sample newlineStr))
                             (List.length (asciiTables sample newlineStr))
                             (consistencies 32 1.0%float))).
  { unfold guessDelimiter in H.
    destruct (List.length (asciiTables sample newlineStr) =? 0); [discriminate |].
    destruct (search _ _ _ _) as [| d1 [| d2 ds]]; [discriminate | |];
      injection H as <-; left; reflexivity. }
  apply search_In in Hin as (consistency & Hin).
  apply round_In in Hin as (i & e & Hie & -> & Hfreq & Hmode).
  apply modes_In in Hie as [Hi He].
  apply modeOf_entry in He as (m & Hm & Hmode').
  destruct (freqTable_counts i (asciiTables sample newlineStr)) as [Hat Hsum].
  apply metaAt_In in Hm; rewrite Hat in Hm.
  rewrite Hsum in Hmode'.
  unfold asciiTables in Hm, Hmode'.
  rewrite length_map in Hmode'.
  rewrite (asciiTables_filter i (maxFreq e) _ Hi) in Hm.
  assert (Hmany : List.length (JS.terminated newlineStr sample)
                  < 2 * List.length
                          (filter (fun line => occurrences (JS.chr i) line =? maxFreq e)
                                  (JS.terminated newlineStr sample))) by lia.
  exists (JS.chr i), (maxFreq e); repeat split.
  - unfold JS.code, JS.chr; rewrite nat_ascii_embedding;
      unfold asciiMax in Hi; lia.
  - destruct (filter (fun line => occurrences (JS.chr i) line =? maxFreq e)
                     (JS.terminated newlineStr sample)) as [| line ls] eqn:Ef;
      [simpl in Hmany; lia |].
    assert (Hline : In line (filter (fun line => occurrences (JS.chr i) line =? maxFreq e)
                                    (JS.terminated newlineStr sample)))
      by (rewrite Ef; left; reflexivity).
    apply filter_In in Hline as [Hline Hocc]; apply Nat.eqb_eq in Hocc.
    assert (Hc : JS.mem (JS.chr i) line = true)
      by (apply occurrences_mem; lia).
    destruct (splitOn_mem newlineStr (JS.chr i) sample 0 EmptyString line Hline Hc)
      as [Hcur | Hs]; [discriminate | exact Hs].
  - lia.
  - exact Hmany.
Qed.

Lemma guessDelimiter_majority_witness :
  exists c k,
    "," = JS.str1 c /\ JS.code c < 127 /\ JS.mem c sampleABC = true /\ 1 <= k /\
    List.length (JS.terminated LF sampleABC)
    < 2 * List.length (filter (fun line => occurrences c line =? k)
                              (JS.terminated LF sampleABC)).
Proof.
  apply (guessDelimiter_majority sampleABC LF None ","); vm_compute; reflexivity.
Defined.

(** ** The parser without quote character *)

Lemma concat_snoc (sep : string) (ls : list string) (tl : string) :
  ls <> [] ->
  String.concat sep (ls ++ [tl])
  = (String.concat sep ls ++ sep ++ tl)%string.
Proof.
  induction ls as [| x ls IH]; intros Hne; [contradiction |].
  destruct ls as [| y ls].
  - reflexivity.
  - change ((x :: y :: ls) ++ [tl]) with (x :: ((y :: ls) ++ [tl])).
    rewrite concat_cons by (simpl; intros E; discriminate E).
    rewrite IH by (intros E; discriminate E).
    rewrite (concat_cons sep x (y :: ls)) by (intros E; discriminate E).
    rewrite !append_assoc; reflexivity.
Qed.

Lemma map_split_join (d : string) (ls : list string) :
  JS.truthy d = true ->
  map (String.concat d) (map (JS.split d) ls) = ls.
Proof.
  intros Hd; induction ls as [| l ls IH]; simpl; [reflexivity |].
  rewrite (split_join d l Hd), IH; reflexivity.
Qed.

Lemma removelast_snoc {A : Type} (l : list A) (a : A) :
  removelast (l ++ [a]) = l.
Proof. apply removelast_last. Qed.

(** X12: without quote character, for a newline string and a delimiter
    that are not empty, the parser keeps one row for each line that the
    newline string ends; joining the fields of each row with the delimiter
    and the rows with the newline string, then adding the newline string
    and the incomplete last line, gives the sample back. A sample in which
    the newline string does not occur is kept as a single row. *)
Theorem parseSample_unquoted_join (sample newlineStr d : string)
  (quotechar : jsopt) :
  falsy quotechar = true ->
  JS.truthy newlineStr = true ->
  JS.truthy d = true ->
  let table := parseSample sample newlineStr (Str d) quotechar in
  (JS.terminated newlineStr sample <> [] ->
   List.length table = List.length (JS.terminated newlineStr sample) /\
   (String.concat newlineStr (map (String.concat d) table)
    ++ newlineStr ++ lastFragment newlineStr sample)%string = sample) /\
  (JS.terminated newlineStr sample = [] -> table = [JS.split d sample]).
Proof.
  intros Hq Hnl Hd; cbv zeta.
  unfold parseSample, JS.terminated, lastFragment; rewrite Hq.
  pose proof (split_join newlineStr sample Hnl) as Hjoin.
  unfold JS.split in *.
  destruct newlineStr as [| a nl]; [discriminate |].
  destruct (JS.splitOn (String a nl) sample 0 EmptyString) as [ls tl];
    cbn [fst snd] in *.
  split.
  - intros Hne.
    assert (Hlen : (1 <? List.length (ls ++ [tl])) = true).
    { apply Nat.ltb_lt; rewrite length_app; simpl.
      destruct ls; [contradiction | simpl; lia]. }
    rewrite Hlen, removelast_snoc.
    change (splitLine (Str d)) with (JS.split d).
    split; [apply length_map |].
    rewrite (map_split_join d ls Hd).
    rewrite <- concat_snoc by exact Hne; exact Hjoin.
  - intros ->; simpl in *. rewrite Hjoin; reflexivity.
Qed.

Lemma parseSample_unquoted_join_witness :
  List.length (parseSample sampleABC LF (Str ",") Null) = 3 /\
  (String.concat LF (map (String.concat ",")
                         (parseSample sampleABC LF (Str ",") Null))
   ++ LF ++ lastFragment LF sampleABC)%string = sampleABC.
Proof.
  apply (proj1 (parseSample_unquoted_join sampleABC LF "," Null
                  eq_refl eq_refl eq_refl)).
  vm_compute; intros E; discriminate E.
Defined.

(** ** A sample without complete line *)

Lemma rowTexts_never c newlineStr quotechar rest :
  JS.mem c newlineStr = true ->
  JS.mem c rest = false ->
  forall esc inq cur, rowTexts newlineStr quotechar rest esc inq cur = [].
Proof.
  intros Hnl; induction rest as [| a rest IH]; intros Hrest esc inq cur;
    [reflexivity |].
  assert (Hp : String.prefix newlineStr (String a rest) = false).
  { destruct (String.prefix newlineStr (String a rest)) eqn:Hp; [| reflexivity].
    rewrite (prefix_mem c newlineStr _ Hp Hnl) in Hrest; discriminate. }
  assert (Hrest' : JS.mem c rest = false)
    by (simpl in Hrest; apply orb_false_elim in Hrest; apply Hrest).
  cbn [rowTexts]; rewrite Hp, andb_false_r.
  destruct esc; [apply IH, Hrest' |].
  destruct (Ascii.eqb a JS.BACKSLASH); [apply IH, Hrest' |].
  destruct (isChar a quotechar); apply IH, Hrest'.
Qed.

(** X13: when a character of the newline string does not occur in the
    sample, the sample has no complete line. With a quote character the
    parser then returns no row at all; without one it returns one row, the
    whole sample split on the delimiter. *)
Theorem parseSample_incomplete (sample newlineStr : string)
  (delimiter quotechar : jsopt) (c : ascii) :
  JS.mem c newlineStr = true ->
  JS.mem c sample = false ->
  parseSample sample newlineStr delimiter quotechar
  = if falsy quotechar then [splitLine delimiter sample] else [].
Proof.
  intros Hnl Hs.
  destruct (falsy quotechar) eqn:Hq.
  - unfold parseSample; rewrite Hq.
    destruct newlineStr as [| a nl]; [discriminate |].
    unfold JS.split.
    rewrite (splitOn_never c _ sample Hnl _ Hs); reflexivity.
  - rewrite (parseSample_rows newlineStr delimiter quotechar sample Hq).
    unfold rowsOf; rewrite (rowTexts_never c _ _ _ Hnl Hs); reflexivity.
Qed.

Lemma parseSample_incomplete_witness :
  parseSample "a,b" LF (Str ",") (Str "'") = [] /\
  parseSample "a,b" LF (Str ",") Null = [["a"; "b"]].
Proof.
  split.
  - apply (parseSample_incomplete "a,b" LF (Str ",") (Str "'") JS.LF);
      reflexivity.
  - apply (parseSample_incomplete "a,b" LF (Str ",") Null JS.LF);
      reflexivity.
Defined.

(** ** Quotes are taken off the fields *)

Lemma mem_append a (s t : string) :
  JS.mem a (s ++ t) = JS.mem a s || JS.mem a t.
Proof.
  induction s as [| b s IH]; simpl; [reflexivity |].
  rewrite IH, orb_assoc; reflexivity.
Qed.

Lemma rowTexts_mem newlineStr quotechar (c : ascii) (rest : string) :
  forall esc inq cur row,
    In row (rowTexts newlineStr quotechar rest esc inq cur) ->
    JS.mem c row = true ->
    JS.mem c cur = true \/ JS.mem c rest = true.
Proof.
  induction rest as [| a rest IH]; intros esc inq cur row; [intros [] |].
  assert (Hstep : forall esc' inq',
             In row (rowTexts newlineStr quotechar rest esc' inq'
                              (cur ++ JS.str1 a)) ->
             JS.mem c row = true ->
             JS.mem c cur = true \/ JS.mem c (String a rest) = true).
  { intros esc' inq' Hin Hc.
    destruct (IH _ _ _ _ Hin Hc) as [H | H]; [| right; apply mem_tail, H].
    rewrite mem_append in H; apply orb_prop in H as [H | H];
      [left; exact H | right].
    simpl in *; rewrite orb_false_r in H; rewrite H; reflexivity. }
  cbn [rowTexts].
  destruct esc; [apply Hstep |].
  destruct (Ascii.eqb a JS.BACKSLASH); [apply Hstep |].
  destruct (isChar a quotechar); [apply Hstep |].
  destruct (negb inq && String.prefix newlineStr (String a rest));
    [| apply Hstep].
  intros [<- | Hin] Hc; [left; exact Hc |].
  destruct (IH _ _ _ _ Hin Hc) as [H | H];
    [discriminate | right; apply mem_tail, H].
Qed.

Section Unquoting.

Variables (delimiter quotechar : jsopt).

Lemma unquoted_snoc (s : string) (a : ascii) :
  unquoted quotechar s -> isChar a quotechar = false ->
  unquoted quotechar (s ++ JS.str1 a).
Proof.
  intros Hs Ha b Hb; rewrite mem_append in Hb.
  apply orb_prop in Hb as [Hb | Hb]; [apply Hs, Hb |].
  simpl in Hb; rewrite orb_false_r in Hb.
  apply Ascii.eqb_eq in Hb; subst b; exact Ha.
Qed.

Lemma lineStep_quoteFree (l : line) (a : ascii) :
  Ascii.eqb a JS.BACKSLASH = false ->
  quoteFree quotechar l -> quoteFree quotechar (lineStep delimiter quotechar l a).
Proof.
  intros Ha (Hesc & Hpend & Hfields); unfold lineStep; rewrite Hesc, Ha.
  destruct (isChar a quotechar) eqn:Hq; [repeat split; assumption |].
  destruct (negb (quoted l) && isChar a delimiter).
  - repeat split; cbn [escaped pending fields].
    + intros b Hb; discriminate.
    + apply Forall_app; split; [exact Hfields | constructor; [exact Hpend | constructor]].
  - repeat split; cbn [escaped pending fields];
      [apply unquoted_snoc; assumption | exact Hfields].
Qed.

Lemma lineRun_quoteFree (row : string) :
  JS.mem JS.BACKSLASH row = false ->
  forall l, quoteFree quotechar l ->
            quoteFree quotechar (lineRun delimiter quotechar row l).
Proof.
  induction row as [| a row IH]; intros Hrow l Hl; [exact Hl |].
  simpl in Hrow; apply orb_false_elim in Hrow as [Ha Hrow'].
  cbn [lineRun]; apply (IH Hrow'), lineStep_quoteFree; [| exact Hl].
  rewrite Ascii.eqb_sym; exact Ha.
Qed.

End Unquoting.

(** X14: when the sample holds no backslash, no field of the table that the
    parser with quotes returns contains the quote character. *)
Theorem parseSample_unquotes (sample newlineStr : string)
  (delimiter quotechar : jsopt) :
  falsy quotechar = false ->
  JS.mem JS.BACKSLASH sample = false ->
  Forall (Forall (unquoted quotechar))
         (parseSample sample newlineStr delimiter quotechar).
Proof.
  intros Hq Hs.
  rewrite (parseSample_rows newlineStr delimiter quotechar sample Hq).
  apply Forall_forall; intros fields Hin.
  apply in_map_iff in Hin as (row & <- & Hrow).
  assert (Hclean : JS.mem JS.BACKSLASH row = false).
  { destruct (JS.mem JS.BACKSLASH row) eqn:E; [| reflexivity].
    destruct (rowTexts_mem _ _ _ _ _ _ _ _ Hrow E) as [H | H];
      [discriminate | rewrite Hs in H; discriminate]. }
  assert (Hstart : quoteFree quotechar lineStart).
  { repeat split; [intros b Hb; discriminate | constructor]. }
  destruct (lineRun_quoteFree delimiter quotechar row Hclean _ Hstart)
    as (_ & Hpend & Hfields).
  unfold lineClose; destruct (JS.isEmpty _); [exact Hfields |].
  apply Forall_app; split; [exact Hfields | constructor; [exact Hpend | constructor]].
Qed.

Lemma parseSample_unquotes_witness :
  Forall (Forall (unquoted (Str "'")))
         (parseSample sampleNames LF (Str ",") (Str "'")).
Proof.
  apply (parseSample_unquotes sampleNames LF (Str ",") (Str "'")); reflexivity.
Defined.

(** ** The results of [sniff] *)

Lemma candidates_truthy newlineStr :
  In newlineStr candidates -> JS.truthy newlineStr = true.
Proof. intros [<- | [<- | [<- | [<- | []]]]]; reflexivity. Qed.

Lemma resolveNewline_truthy sample o newlineStr :
  resolveNewline sample o = Some newlineStr -> JS.truthy newlineStr = true.
Proof.
  unfold resolveNewline.
  destruct (Options.newlineStr o) as [| | s]; simpl.
  - intros H; apply candidates_truthy, (getNewlineStr_In sample), H.
  - intros H; apply candidates_truthy, (getNewlineStr_In sample), H.
  - destruct (JS.isEmpty s) eqn:E.
    + intros H; apply candidates_truthy, (getNewlineStr_In sample), H.
    + intros H; injection H as <-; unfold JS.truthy; rewrite E; reflexivity.
Qed.

Lemma guessDelimiter_char sample newlineStr delimiters d :
  guessDelimiter sample newlineStr delimiters = Some d ->
  exists c, d = JS.str1 c.
Proof.
  intros H.
  assert (Hin : In d (search delimiters (modes (asciiTables sample newlineStr))
                             (List.length (asciiTables sample newlineStr))
                             (consistencies 32 1.0%float))).
  { unfold guessDelimiter in H.
    destruct (List.length (asciiTables sample newlineStr) =? 0); [discriminate |].
    destruct (search _ _ _ _) as [| d1 [| d2 ds]]; [discriminate | |];
      injection H as <-; left; reflexivity. }
  apply search_In in Hin as (consistency & Hin).
  apply round_In in Hin as (i & e & _ & -> & _).
  exists (JS.chr i); reflexivity.
Qed.

Lemma resolveDelimiter_shape this sample newlineStr delimiter :
  resolveDelimiter this sample newlineStr delimiter = Null \/
  exists d, resolveDelimiter this sample newlineStr delimiter = Str d /\
            JS.truthy d = true.
Proof.
  unfold resolveDelimiter.
  destruct (falsy delimiter) eqn:Hf.
  - destruct (guessDelimiter sample newlineStr this) as [d |] eqn:Hd;
      [right | left; reflexivity].
    destruct (guessDelimiter_char _ _ _ _ Hd) as (c & ->).
    exists (JS.str1 c); split; reflexivity.
  - destruct delimiter as [| | s]; try discriminate.
    right; exists s; split; [reflexivity |].
    simpl in Hf; unfold JS.truthy; rewrite Hf; reflexivity.
Qed.

Lemma resolveDelimiter_idem this sample newlineStr delimiter :
  resolveDelimiter this sample newlineStr
                   (resolveDelimiter this sample newlineStr delimiter)
  = resolveDelimiter this sample newlineStr delimiter.
Proof.
  unfold resolveDelimiter.
  destruct (falsy delimiter) eqn:Hf; [| rewrite Hf; reflexivity].
  destruct (falsy (ofOption (guessDelimiter sample newlineStr this)));
    reflexivity.
Qed.

Lemma patternGuess_quoteChar this sample newlineStr o :
  Guess.quoteChar (patternGuess this sample newlineStr o) <> Undefined /\
  (Options.quoteChar o <> Undefined ->
   patternGuess this sample newlineStr o
   = {| Guess.quoteChar := Options.quoteChar o;
        Guess.delimiter := Options.delimiter o;
        Guess.warnings := [] |}).
Proof.
  unfold patternGuess; split.
  - destruct (Options.quoteChar o); try (simpl; discriminate).
    destruct (delim _) as [d |]; [| simpl; discriminate].
    destruct (quote _) as [q |]; [| simpl; discriminate].
    destruct (JS.truthy d && _); [| simpl; discriminate].
    destruct (Options.delimiter o); simpl; discriminate.
  - destruct (Options.quoteChar o); [contradiction | reflexivity ..].
Qed.

Lemma getTypes_lengths (table : list (list string)) :
  List.length (Types.tail (getTypes table)) = List.length (nth 0 table []) /\
  List.length (Types.all (getTypes table)) = List.length (nth 0 table []).
Proof.
  destruct table as [| row0 rows]; [split; reflexivity |].
  rewrite getTypes_unfold; cbv zeta; cbn [Types.tail Types.all nth].
  rewrite accumulate_length, tail_length, length_map; split; reflexivity.
Qed.

Lemma resolveHeader_types o table :
  List.length (Header.types (resolveHeader o table))
  = List.length (nth 0 table []) /\
  Header.types (resolveHeader o table)
  = if Header.hasHeader (resolveHeader o table)
    then Types.tail (getTypes table) else Types.all (getTypes table).
Proof.
  destruct (getTypes_lengths table) as [Ht Ha].
  unfold resolveHeader, hasHeader.
  destruct (Options.hasHeader o) as [[|] |]; cbn [Header.types Header.hasHeader];
    try (split; [assumption | reflexivity]).
  destruct (0 <? _)%Z; split; auto.
Qed.

(** X15: a result of [sniff] is well formed. Its newline string is not
    empty, and is one of the four candidates when the options give none;
    its delimiter is null or a string that is not empty; its quote
    character is never undefined; it has one type for each field of row 0
    of the parsed table, and as many labels when it has labels. *)
Theorem sniff_result_shape (this : CSVSniffer) (sample : string)
  (options : option Options.t) (r : Result.t) :
  sniff this sample options = Returns r ->
  plainNewline (Result.newlineStr r) = true ->
  JS.truthy (Result.newlineStr r) = true /\
  (falsy (Options.newlineStr (given options)) = true ->
   In (Result.newlineStr r) candidates) /\
  (Result.delimiter r = Null \/
   exists d, Result.delimiter r = Str d /\ JS.truthy d = true) /\
  Result.quoteChar r <> Undefined /\
  List.length (Result.types r)
  = List.length (nth 0 (parsedTable sample r) []) /\
  (forall labels, Result.labels r = Some labels ->
                  List.length labels = List.length (Result.types r)).
Proof.
  unfold sniff; fold (given options).
  destruct (resolveNewline sample (given options)) as [newlineStr |] eqn:Hnl;
    [| discriminate].
  intros H _; injection H as <-.
  unfold parsedTable, assemble;
    cbn [Result.newlineStr Result.delimiter Result.quoteChar Result.types
         Result.labels].
  set (guess := patternGuess this sample newlineStr (given options)).
  set (delimiter := resolveDelimiter this sample newlineStr (Guess.delimiter guess)).
  set (table := parseSample sample newlineStr delimiter (Guess.quoteChar guess)).
  destruct (resolveHeader_types (given options) table) as [Hlen _].
  repeat split.
  - apply (resolveNewline_truthy sample (given options)), Hnl.
  - intros Hf; unfold resolveNewline in Hnl; rewrite Hf in Hnl.
    apply (getNewlineStr_In sample), Hnl.
  - apply resolveDelimiter_shape.
  - apply patternGuess_quoteChar.
  - exact Hlen.
  - intros labels.
    destruct (Header.hasHeader _ && _); [| discriminate].
    intros E; injection E as <-; rewrite Hlen; reflexivity.
Qed.

Lemma sniff_result_shape_witness :
  exists r,
    sniff None sampleNames None = Returns r /\
    JS.truthy (Result.newlineStr r) = true /\
    List.length (Result.types r) = 2.
Proof.
  eexists; split; [vm_compute; reflexivity |].
  pose proof (sniff_result_shape None sampleNames None _ eq_refl eq_refl)
    as (H1 & _ & _ & _ & H5 & _).
  split; [exact H1 | exact H5].
Defined.

(** X16: each value that the options supply is kept in the result on its
    own account: a newline string that is not empty, a delimiter that is a
    string and not empty, a quote character that is not undefined, and a
    hasHeader that is neither undefined nor null. *)
Theorem sniff_keeps_each (this : CSVSniffer) (sample : string)
  (o : Options.t) (r : Result.t) :
  sniff this sample (Some o) = Returns r ->
  plainNewline (Result.newlineStr r) = true ->
  (forall s, Options.newlineStr o = Str s -> JS.truthy s = true ->
             Result.newlineStr r = s) /\
  (forall s, Options.delimiter o = Str s -> JS.truthy s = true ->
             Result.delimiter r = Str s) /\
  (Options.quoteChar o <> Undefined ->
   Result.quoteChar r = Options.quoteChar o) /\
  (forall b, Options.hasHeader o = Some b -> Result.hasHeader r = b).
Proof.
  unfold sniff.
  destruct (resolveNewline sample o) as [newlineStr |] eqn:Hnl; [| discriminate].
  intros H _; injection H as <-.
  cbn [assemble Result.newlineStr Result.delimiter Result.quoteChar
       Result.hasHeader].
  repeat split.
  - intros s Hs Ht; unfold resolveNewline in Hnl; rewrite Hs in Hnl.
    unfold JS.truthy in Ht; simpl in Hnl.
    destruct (JS.isEmpty s); [discriminate |].
    injection Hnl as <-; reflexivity.
  - intros s Hs Ht.
    assert (Hg : Guess.delimiter (patternGuess this sample newlineStr o) = Str s).
    { unfold patternGuess; rewrite Hs.
      destruct (Options.quoteChar o); try reflexivity.
      destruct (delim _); [| reflexivity].
      destruct (quote _); [| reflexivity].
      destruct (JS.truthy _ && _); reflexivity. }
    unfold resolveDelimiter; rewrite Hg; simpl.
    unfold JS.truthy in Ht; destruct (JS.isEmpty s); [discriminate | reflexivity].
  - intros Hq.
    rewrite (proj2 (patternGuess_quoteChar this sample newlineStr o) Hq).
    reflexivity.
  - intros b Hb; unfold resolveHeader; rewrite Hb; reflexivity.
Qed.

Lemma sniff_keeps_each_witness :
  exists r,
    sniff None sampleTwoByTwo
          (Some {| Options.newlineStr := Undefined; Options.delimiter := Str ";";
                   Options.quoteChar := Undefined; Options.hasHeader := None |})
    = Returns r /\
    Result.delimiter r = Str ";".
Proof.
  eexists; split; [vm_compute; reflexivity |].
  destruct (sniff_keeps_each None sampleTwoByTwo
              {| Options.newlineStr := Undefined; Options.delimiter := Str ";";
                 Options.quoteChar := Undefined; Options.hasHeader := None |}
              _ eq_refl eq_refl) as (_ & H & _ & _).
  apply (H ";"); reflexivity.
Defined.

(** X17: [sniff] gives one warning at most. It gives one only when the
    options supply a delimiter and no quote character and the pattern-based
    guesser found, with a quote, a delimiter that differs from the one
    supplied; the result then carries that quote. *)
Theorem sniff_warning (this : CSVSniffer) (sample : string)
  (options : option Options.t) (r : Result.t) :
  sniff this sample options = Returns r ->
  plainNewline (Result.newlineStr r) = true ->
  Result.warnings r = [] \/
  exists d q,
    Result.warnings r = [warning (Options.delimiter (given options)) d] /\
    Options.quoteChar (given options) = Undefined /\
    Options.delimiter (given options) <> Undefined /\
    guessQuoteAndDelimiter sample (Result.newlineStr r) this
    = {| delim := Some d; quote := Some q |} /\
    differs (Options.delimiter (given options)) d = true /\
    Result.quoteChar r = Str q.
Proof.
  unfold sniff; fold (given options).
  destruct (resolveNewline sample (given options)) as [newlineStr |];
    [| discriminate].
  intros H _; injection H as <-.
  cbn [assemble Result.warnings Result.newlineStr Result.quoteChar].
  unfold patternGuess.
  destruct (Options.quoteChar (given options)) eqn:Hq;
    [| left; reflexivity ..].
  destruct (guessQuoteAndDelimiter sample newlineStr this) as [[d |] [q |]];
    cbn [delim quote]; try (left; reflexivity).
  destruct (JS.truthy d && _); [| left; reflexivity].
  destruct (Options.delimiter (given options)) as [| | s] eqn:Hd;
    cbn [Guess.warnings Guess.quoteChar]; [left; reflexivity | |].
  - right; exists d, q; repeat split; discriminate.
  - destruct (differs (Str s) d) eqn:Hdiff; [| left; reflexivity].
    right; exists d, q; repeat split; [discriminate | exact Hdiff].
Qed.

Lemma sniff_warning_witness :
  exists r,
    sniff None sampleQuoted (Some {| Options.newlineStr := Undefined;
                                     Options.delimiter := Str ";";
                                     Options.quoteChar := Undefined;
                                     Options.hasHeader := None |})
    = Returns r /\
    (Result.warnings r = [] \/
     exists d q,
       Result.warnings r = [warning (Str ";") d] /\
       Undefined = Undefined /\ Str ";" <> Undefined /\
       guessQuoteAndDelimiter sampleQuoted (Result.newlineStr r) None
       = {| delim := Some d; quote := Some q |} /\
       differs (Str ";") d = true /\ Result.quoteChar r = Str q).
Proof.
  eexists; split; [vm_compute; reflexivity |].
  apply (sniff_warning None sampleQuoted
           (Some {| Options.newlineStr := Undefined; Options.delimiter := Str ";";
                    Options.quoteChar := Undefined; Options.hasHeader := None |})
           _ eq_refl eq_refl).
Defined.

(** X18: sniffing the sample again, with the newline string, the delimiter,
    the quote character and the hasHeader of a result as options, gives the
    same result, without its warnings. *)
Theorem sniff_again (this : CSVSniffer) (sample : string)
  (options : option Options.t) (r : Result.t) :
  sniff this sample options = Returns r ->
  plainNewline (Result.newlineStr r) = true ->
  sniff this sample (Some (again r)) = Returns (quiet r).
Proof.
  unfold sniff at 1; fold (given options).
  destruct (resolveNewline sample (given options)) as [newlineStr |] eqn:Hnl;
    [| discriminate].
  intros H _; injection H as <-.
  apply resolveNewline_truthy in Hnl.
  set (guess := patternGuess this sample newlineStr (given options)).
  set (delimiter := resolveDelimiter this sample newlineStr (Guess.delimiter guess)).
  set (table := parseSample sample newlineStr delimiter (Guess.quoteChar guess)).
  destruct (resolveHeader_types (given options) table) as [_ Hty].
  set (h := resolveHeader (given options) table) in *.
  unfold sniff, again, quiet, assemble, resolveNewline;
    cbn [Options.newlineStr Options.delimiter Options.quoteChar Options.hasHeader
         Result.newlineStr Result.delimiter Result.quoteChar Result.hasHeader
         Result.types Result.labels Result.records Result.warnings
         falsy toString].
  unfold JS.truthy in Hnl.
  destruct (JS.isEmpty newlineStr); [discriminate |].
  assert (Hq : Guess.quoteChar guess <> Undefined)
    by apply patternGuess_quoteChar.
  rewrite (proj2 (patternGuess_quoteChar this sample newlineStr
                    {| Options.newlineStr := Str newlineStr;
                       Options.delimiter := delimiter;
                       Options.quoteChar := Guess.quoteChar guess;
                       Options.hasHeader := Some (Header.hasHeader h) |}) Hq).
  cbn [Guess.delimiter Guess.quoteChar Guess.warnings
       Options.delimiter Options.quoteChar].
  assert (Hidem : resolveDelimiter this sample newlineStr delimiter = delimiter)
    by apply resolveDelimiter_idem.
  rewrite !Hidem; fold table.
  unfold resolveHeader; cbn [Options.hasHeader Header.hasHeader Header.types].
  rewrite Hty; reflexivity.
Qed.

Lemma sniff_again_witness :
  exists r,
    sniff None sampleNames None = Returns r /\
    sniff None sampleNames (Some (again r)) = Returns (quiet r).
Proof.
  eexists; split; [vm_compute; reflexivity |].
  apply (sniff_again None sampleNames None _ eq_refl eq_refl).
Defined.

(** ** Fields made of digits *)

Lemma isDigit_code c : JS.isDigit c = true -> 48 <= JS.code c <= 57.
Proof.
  unfold JS.isDigit; intros H; apply andb_prop in H as [H1 H2].
  apply Nat.leb_le in H1, H2; lia.
Qed.

Lemma isDigit_not c a :
  JS.isDigit c = true -> JS.isDigit a = false -> Ascii.eqb c a = false.
Proof.
  intros Hc Ha; destruct (Ascii.eqb_spec c a) as [-> | _]; [| reflexivity].
  rewrite Hc in Ha; discriminate.
Qed.

Lemma isDigit_not_space c : JS.isDigit c = true -> JS.isWhiteSpace c = false.
Proof.
  intros H; apply isDigit_code in H; unfold JS.isWhiteSpace; simpl.
  repeat match goal with
         | |- context [?x =? ?n] =>
             replace (x =? n) with false by (symmetry; apply Nat.eqb_neq; lia)
         end.
  reflexivity.
Qed.

Lemma digits_span s :
  JS.all JS.isDigit s = true -> JS.span JS.isDigit s = (s, EmptyString).
Proof.
  induction s as [| c s IH]; simpl; [reflexivity |].
  intros H; apply andb_prop in H as [Hc Hs].
  rewrite Hc, (IH Hs); reflexivity.
Qed.

Lemma digits_trimRight s :
  JS.all JS.isDigit s = true -> JS.trimRight s = s.
Proof.
  induction s as [| c s IH]; simpl; [reflexivity |].
  intros H; apply andb_prop in H as [Hc Hs].
  rewrite (isDigit_not_space c Hc), (IH Hs); reflexivity.
Qed.

Lemma digits_trim c s :
  JS.all JS.isDigit (String c s) = true -> JS.trim (String c s) = String c s.
Proof.
  intros H; unfold JS.trim, JS.trimLeft.
  assert (Hc : JS.isDigit c = true) by (simpl in H; apply andb_prop in H; apply H).
  cbn [JS.span]; rewrite (isDigit_not_space c Hc); cbn [snd].
  apply digits_trimRight, H.
Qed.

Lemma digitsValue_bound s : forall acc,
  JS.all JS.isDigit s = true -> (0 <= acc)%Z ->
  (0 <= JS.digitsValue 10 acc s < (acc + 1) * 10 ^ Z.of_nat (String.length s))%Z.
Proof.
  induction s as [| c s IH]; intros acc H Hacc.
  - simpl; lia.
  - simpl in H; apply andb_prop in H as [Hc Hs].
    cbn [JS.digitsValue String.length].
    assert (Hd : exists d, JS.digitIn 10 c = Some d /\ d <= 9).
    { pose proof (isDigit_code c Hc) as Hcode.
      unfold JS.digitIn.
      replace ((48 <=? JS.code c) && (JS.code c <=? 57)) with true
        by (symmetry; apply andb_true_intro; split; apply Nat.leb_le; lia).
      replace (JS.code c - 48 <? 10) with true
        by (symmetry; apply Nat.ltb_lt; lia).
      exists (JS.code c - 48); split; [reflexivity | lia]. }
    destruct Hd as (d & -> & Hd).
    specialize (IH (acc * Z.of_nat 10 + Z.of_nat d)%Z Hs ltac:(lia)).
    rewrite (Nat2Z.inj_succ (String.length s)), Z.pow_succ_r by lia.
    change (Z.of_nat 10) with 10%Z in IH.
    assert (Hpow : (0 < 10 ^ Z.of_nat (String.length s))%Z)
      by (apply Z.pow_pos_nonneg; lia).
    change (Z.of_nat 10) with 10%Z.
    assert (Hstep : ((acc * 10 + Z.of_nat d + 1) * 10 ^ Z.of_nat (String.length s)
                     <= (acc + 1) * 10 * 10 ^ Z.of_nat (String.length s))%Z)
      by (apply Z.mul_le_mono_nonneg_r; lia).
    lia.
Qed.

Lemma roundHalfEven_le n d :
  (JS.roundHalfEven n d <= n / d + 1)%Z.
Proof.
  unfold JS.roundHalfEven.
  destruct (2 * (n mod d) ?= d)%Z; [destruct (Z.even (n / d)) | |]; lia.
Qed.

(** The conversion of an integer below 10^308 is finite and has a zero
    remainder modulo 1. *)
Lemma toDouble_integer n :
  (0 <= n < 10 ^ 308)%Z ->
  exists m e, JS.toDouble n 1 = JS.Fin m e /\ JS.isIntegral m e = true.
Proof.
  intros [Hn0 Hn]; unfold JS.toDouble.
  destruct (Z.eqb_spec n 0) as [-> | Hne];
    [exists 0%Z, 0%Z; split; reflexivity |].
  assert (Hpos : (0 < n)%Z) by lia.
  assert (He : JS.floorLog2 n 1 = Z.log2 n).
  { unfold JS.floorLog2; change (Z.log2 1) with 0%Z; rewrite Z.sub_0_r.
    pose proof (Z.log2_nonneg n) as Hl.
    replace (0 <=? Z.log2 n)%Z with true by (symmetry; apply Z.leb_le, Hl).
    replace (1 * 2 ^ Z.log2 n <=? n)%Z with true; [reflexivity |].
    symmetry; apply Z.leb_le.
    pose proof (Z.log2_spec n Hpos); lia. }
  rewrite He.
  assert (Hlog : (0 <= Z.log2 n < 1024)%Z).
  { split; [apply Z.log2_nonneg |].
    apply Z.log2_lt_pow2; [exact Hpos |].
    eapply Z.lt_trans; [exact Hn | reflexivity]. }
  replace (1024 <=? Z.log2 n)%Z with false by (symmetry; apply Z.leb_gt; lia).
  rewrite Z.max_l by lia.
  set (p := (Z.log2 n - 52)%Z).
  destruct (Z.leb_spec 0 p) as [Hp | Hp].
  - (* the value is rounded to a multiple of 2^p *)
    assert (Hq : (971 <= p -> JS.roundHalfEven n (1 * 2 ^ p) < 2 ^ 53)%Z).
    { intros Hbig.
      pose proof (roundHalfEven_le n (1 * 2 ^ p)) as Hle.
      assert (Hdiv : (n / (1 * 2 ^ p) <= 10 ^ 308 / 2 ^ 971)%Z).
      { rewrite Z.mul_1_l.
        transitivity (n / 2 ^ 971)%Z.
        - apply Z.div_le_compat_l; [lia |].
          split; [apply Z.pow_pos_nonneg; lia | apply Z.pow_le_mono_r; lia].
        - apply Z.div_le_mono; [apply Z.pow_pos_nonneg; lia | lia]. }
      assert (Hconst : (10 ^ 308 / 2 ^ 971 + 1 < 2 ^ 53)%Z) by reflexivity.
      lia. }
    destruct (Z.leb_spec 971 p) as [Hbig | Hsmall].
    + replace (2 ^ 53 <=? JS.roundHalfEven n (1 * 2 ^ p))%Z with false
        by (symmetry; apply Z.leb_gt, Hq, Hbig).
      eexists _, p; split; [reflexivity |].
      unfold JS.isIntegral.
      replace (0 <=? p)%Z with true by (symmetry; apply Z.leb_le, Hp).
      reflexivity.
    + rewrite andb_false_r.
      eexists _, p; split; [reflexivity |].
      unfold JS.isIntegral.
      replace (0 <=? p)%Z with true by (symmetry; apply Z.leb_le, Hp).
      reflexivity.
  - (* the value is below 2^52: it is kept as it is *)
    replace (971 <=? p)%Z with false by (symmetry; apply Z.leb_gt; lia).
    rewrite andb_false_r.
    eexists _, p; split; [reflexivity |].
    unfold JS.isIntegral.
    replace (0 <=? p)%Z with false by (symmetry; apply Z.leb_gt, Hp).
    apply Z.eqb_eq.
    unfold JS.roundHalfEven.
    rewrite Z.mod_1_r, Z.div_1_r; cbn [Z.mul Z.compare].
    apply Z.mod_mul.
    apply Z.pow_nonzero; lia.
Qed.

Lemma digits_toNumber s :
  JS.truthy s = true -> JS.all JS.isDigit s = true ->
  JS.toNumber s = JS.toDouble (JS.digitsValue 10 0 s) 1.
Proof.
  intros Hne H.
  destruct s as [| c s]; [discriminate |].
  unfold JS.toNumber; rewrite (digits_trim c s H); cbn [JS.isEmpty].
  assert (Hc : JS.isDigit c = true) by (simpl in H; apply andb_prop in H; apply H).
  assert (Hradix : JS.radixPrefix (String c s) = None).
  { unfold JS.radixPrefix.
    destruct s as [| x ds]; [reflexivity |].
    assert (Hx : JS.isDigit x = true).
    { simpl in H; apply andb_prop in H as [_ H].
      apply andb_prop in H; apply H. }
    destruct (Ascii.eqb c "0"); [| reflexivity].
    rewrite !(isDigit_not x _ Hx) by reflexivity; reflexivity. }
  unfold JS.parseNumeric; rewrite Hradix.
  rewrite !(isDigit_not c _ Hc) by reflexivity.
  unfold JS.parseUnsignedDecimal.
  replace (String.eqb (String c s) "Infinity") with false.
  2: { symmetry; apply String.eqb_neq; intros E; rewrite E in H; discriminate. }
  rewrite (digits_span _ H); cbn [JS.isEmpty].
  unfold JS.decimalValue; cbn [Z.leb Z.compare Z.pow].
  rewrite Z.mul_1_r; reflexivity.
Qed.

(** X19: a field made of decimal digits only, from 1 to 308 of them, has
    the type integer: it keeps a column that is integer at integer. *)
Theorem digits_are_integer (s : string) :
  JS.truthy s = true ->
  JS.all JS.isDigit s = true ->
  String.length s <= 308 ->
  getAccumulatedType s "integer" = "integer".
Proof.
  intros Hne H Hlen.
  unfold getAccumulatedType; rewrite (digits_toNumber s Hne H).
  destruct (digitsValue_bound s 0%Z H ltac:(lia)) as [H0 Hlt].
  assert (Hn : (0 <= JS.digitsValue 10 0 s < 10 ^ 308)%Z).
  { split; [exact H0 |].
    eapply Z.lt_le_trans; [exact Hlt |].
    rewrite Z.mul_1_l; apply Z.pow_le_mono_r; lia. }
  destruct (toDouble_integer _ Hn) as (m & e & -> & Hint).
  simpl; rewrite Hint; reflexivity.
Qed.

Lemma digits_are_integer_witness :
  getAccumulatedType "00420" "integer" = "integer".
Proof. apply digits_are_integer; [reflexivity | reflexivity | simpl; lia]. Defined.
